(** * rollbar: a shallow embedding of the Go client and its properties

    The first part embeds the package, one module for each file:
    - [GoStrings], [Adler32], [Fmt]: the functions of Go's [strings],
      [hash/adler32] and [fmt] that the client calls, over byte strings;
    - [StackTrace]: stack.go ([Frame], [Stack], [BuildStack],
      [shortenFilePath], [functionName]);
    - [Rollbar]: rollbar.go, version 0.2.0 (report construction, the
      parameter filter, the sending queue and its worker);
    - [Legacy]: the entry points of rollbar.go, version 0.1.0, that differ
      from 0.2.0 in how they derive the title.
    The second part states and proves the properties, in one module of
    facts for each module of the first part. *)

From Stdlib Require Import ZArith Ascii String Lia List.
From Stdlib Require Import DecimalString HexadecimalString DecimalZ.
From stdpp Require Import gmap strings list.

Local Open Scope Z_scope.

(** * Part I: the embedding *)

(** ** Go's string functions *)

Module GoStrings.

(** [len(s)] *)
Definition len (s : string) : Z := Z.of_nat (String.length s).

(** [strings.HasPrefix(s, prefix)] *)
Fixpoint HasPrefix (s prefix : string) {struct prefix} : bool :=
  match prefix, s with
  | EmptyString, _ => true
  | String _ _, EmptyString => false
  | String c prefix', String d s' =>
      if Ascii.eqb c d then HasPrefix s' prefix' else false
  end.

(** [strings.Index(s, substr)]: the index of the first instance of
    [substr] in [s], or [-1] if [substr] is not present in [s]. *)
Fixpoint Index (s substr : string) : Z :=
  if HasPrefix s substr then 0
  else match s with
       | EmptyString => -1
       | String _ s' =>
           let i := Index s' substr in
           if i <? 0 then -1 else i + 1
       end.

(** [strings.LastIndex(s, substr)]: the index of the last instance of
    [substr] in [s], or [-1]. *)
Fixpoint LastIndex (s substr : string) : Z :=
  match s with
  | EmptyString => if HasPrefix s substr then 0 else -1
  | String _ s' =>
      let i := LastIndex s' substr in
      if 0 <=? i then i + 1
      else if HasPrefix s substr then 0 else -1
  end.

(** The slice expression [s[n:]] for [0 <= n <= len(s)]. *)
Fixpoint sdrop (n : nat) (s : string) : string :=
  match n, s with
  | O, _ => s
  | S _, EmptyString => EmptyString
  | S n', String _ s' => sdrop n' s'
  end.

(** The slice expression [s[:n]] for [0 <= n <= len(s)]. *)
Fixpoint stake (n : nat) (s : string) : string :=
  match n, s with
  | O, _ => EmptyString
  | S _, EmptyString => EmptyString
  | S n', String c s' => String c (stake n' s')
  end.

Definition sliceFrom (s : string) (i : Z) : string := sdrop (Z.to_nat i) s.

(** [strings.TrimPrefix(s, prefix)] *)
Definition TrimPrefix (s prefix : string) : string :=
  if HasPrefix s prefix then sliceFrom s (len prefix) else s.

(** [strings.SplitN(s, sep, 2)[0]] for a non-empty separator: the text
    before the first [sep], or all of [s] when there is none. *)
Definition SplitN2_first (s sep : string) : string :=
  let i := Index s sep in
  if i <? 0 then s else stake (Z.to_nat i) s.

(** The line feed, written [\n] in Go. *)
Definition newline : string := String "010"%char "".

(** [s] has an instance of [sub]. *)
Definition Contains (s sub : string) : Prop :=
  exists pre rest, s = pre +:+ sub +:+ rest.

End GoStrings.

(** ** stack.go *)

Module StackTrace.
Import GoStrings.

Definition knownFilePathPatterns : list string :=
  [ "github.com/"; "code.google.com/"; "bitbucket.org/"; "launchpad.net/" ].

(** Frame is a single line of executed code in a Stack. *)
Record Frame : Type := mkFrame {
  Filename : string;
  Method : string;
  Line : Z
}.

(** Stack represents a stacktrace as a slice of Frames. *)
Definition Stack : Type := list Frame.

(** The loop over [knownFilePathPatterns] in [shortenFilePath]. *)
Fixpoint shortenKnown (patterns : list string) (s : string) : string :=
  match patterns with
  | [] => s
  | pattern :: patterns' =>
      let idx := Index s pattern in
      if negb (idx =? -1) then sliceFrom s idx
      else shortenKnown patterns' s
  end.

Definition shortenFilePath (s : string) : string :=
  let idx := Index s "/src/pkg/" in
  if negb (idx =? -1) then sliceFrom s (idx + 5)
  else shortenKnown knownFilePathPatterns s.

(** What [runtime.Caller(i)] and [runtime.FuncForPC] report for one level
    of the call stack: the file, the line, and the name of the function
    ([None] when [FuncForPC] returns nil). *)
Record Caller : Type := mkCaller {
  callerFile : string;
  callerLine : Z;
  callerFunc : option string
}.

(** [os.PathSeparator] on the platforms the client is built for. *)
Definition PathSeparator : string := "/".

Definition functionName (fn : option string) : string :=
  match fn with
  | None => "???"
  | Some name =>
      let end_ := LastIndex name PathSeparator in
      sliceFrom name (end_ + 1)
  end.

(** The body of the loop of [BuildStack], run over the levels at which
    [runtime.Caller] still answers [ok]. *)
Fixpoint BuildStack_loop (levels : list Caller) (stack : Stack) : Stack :=
  match levels with
  | [] => stack
  | c :: levels' =>
      let file := shortenFilePath (callerFile c) in
      BuildStack_loop levels'
        (stack ++ [mkFrame file (functionName (callerFunc c)) (callerLine c)])
  end.

(** [BuildStack(skip)], given the call stack as [runtime.Caller] sees it
    from inside [BuildStack] (level 0 is [BuildStack] itself). *)
Definition BuildStack (callers : list Caller) (skip : Z) : Stack :=
  BuildStack_loop (List.skipn (Z.to_nat skip) callers) [].

(** *** Vocabulary of the statements *)

(** [s] splits as [pre ++ sub ++ rest] at the first instance of [sub]. *)
Definition FirstAt (s sub pre rest : string) : Prop :=
  s = pre +:+ sub +:+ rest /\
  forall pre' rest', s = pre' +:+ sub +:+ rest' ->
    (String.length pre <= String.length pre')%nat.

(** The marker of the standard library's sources. *)
Definition stdlibMarker : string := "/src/pkg/".

(** The frame that the loop of [BuildStack] appends for one level. *)
Definition frameOf (c : Caller) : Frame :=
  mkFrame (shortenFilePath (callerFile c)) (functionName (callerFunc c))
    (callerLine c).

(** The call stack of [TestBuildStack] in stack_test.go. *)
Definition test_callers : list Caller :=
  [ mkCaller "/go/src/github.com/stvp/rollbar/stack.go" 33
      (Some "github.com/stvp/rollbar.BuildStack");
    mkCaller "/go/src/github.com/stvp/rollbar/stack_test.go" 8
      (Some "github.com/stvp/rollbar.TestBuildStack") ].

End StackTrace.

(** ** hash/adler32 *)

Module Adler32.

(** The largest prime below 65536. *)
Definition mod_ : Z := 65521.

(** One byte at a time: [s1] is one plus the sum of the bytes, [s2] the sum
    of the successive values of [s1], both modulo [mod_]. *)
Fixpoint update (s1 s2 : Z) (p : string) : Z * Z :=
  match p with
  | EmptyString => (s1, s2)
  | String c p' =>
      let s1' := (s1 + Z.of_N (N_of_ascii c)) mod mod_ in
      let s2' := (s2 + s1') mod mod_ in
      update s1' s2' p'
  end.

(** [adler32.Checksum(data)]: [s2<<16 | s1], a uint32. *)
Definition Checksum (data : string) : Z :=
  let '(s1, s2) := update 1 0 data in
  Z.lor (Z.shiftl s2 16) s1.

End Adler32.

(** ** The two verbs of fmt that the client uses *)

Module Fmt.

(** The verb [%d] on an int. *)
Definition Sprintf_d (n : Z) : string :=
  DecimalString.NilEmpty.string_of_int (Z.to_int n).

(** The verb [%x] on an unsigned integer: lower-case hexadecimal without
    leading zeros. *)
Definition Sprintf_x (n : Z) : string :=
  HexadecimalString.NilEmpty.string_of_uint (N.to_hex_uint (Z.to_N n)).

End Fmt.

(** ** rollbar.go, version 0.2.0 *)

Module Rollbar.
Import GoStrings StackTrace.

Definition NAME : string := "go-rollbar".
Definition VERSION : string := "0.2.0".

(** Severity levels *)
Definition CRIT : string := "critical".
Definition ERR : string := "error".
Definition WARN : string := "warning".
Definition INFO : string := "info".
Definition DEBUG : string := "debug".

Definition FILTERED : string := "[FILTERED]".

(** *** Values *)

(** A compiled regular expression.  The default of [FilterFields] is
    built from literals and alternation; any other expression is given by
    the set of keys it matches. *)
Inductive Regexp : Type :=
  | Literal (s : string)
  | Alternate (r1 r2 : Regexp)
  | Other (matches : string -> bool).

(** [re.Match([]byte(key))]: whether [key] has a match of [re] anywhere.
    Letters match themselves only; there is no case folding. *)
Fixpoint Match (re : Regexp) (key : string) : bool :=
  match re with
  | Literal s => 0 <=? Index key s
  | Alternate r1 r2 => Match r1 key || Match r2 key
  | Other matches => matches key
  end.

(** What [interface{}] holds in the bodies the client builds. *)
#[warnings="-register-all"]
Inductive value : Type :=
  | VString (s : string)
  | VInt (n : Z)
  | VStrings (l : list string)
  | VStack (s : Stack)
  | VMap (m : gmap string value).

(** [map[string]interface{}] *)
Abbreviation Body := (gmap string value).

(** [map[string][]string], the type under [url.Values] and [http.Header]. *)
Abbreviation Params := (gmap string (list string)).

(** A Go map is a reference: [Some l] points at the map stored at [l],
    [None] is the nil map. *)
Definition loc : Type := positive.
Definition Values : Type := option loc.

(** An error value: what [reflect.TypeOf(err).String()] and [err.Error()]
    give for it. *)
Record GoError : Type := mkError {
  errType : string;
  errText : string
}.

(** The fields of [*http.Request] that the client reads. [URL_Query] is
    what [r.URL.Query()] parses out of the URL, a new map at every call. *)
Record Request : Type := mkRequest {
  URL_String : string;
  URL_Query : Params;
  Method_ : string;
  Header : Params;
  Form : Values
}.

(** What the process observes of its surroundings while it builds one
    report. *)
Record Env : Type := mkEnv {
  now : Z;                 (* time.Now().Unix() *)
  hostname : string;       (* os.Hostname() *)
  GOOS : string;           (* runtime.GOOS *)
  callers : list Caller    (* the call stack, seen from BuildStack *)
}.

(** One call of [http.Post]. *)
Record Posted : Type := mkPosted {
  postedURL : string;
  postedContentType : string;
  postedBody : string
}.

(** What [http.Post] returns. *)
Inductive PostResult : Type :=
  | PostFailed (err : string)
  | Response (StatusCode : Z) (Status : string).

(** The package variables, the maps the caller shares with the client, and
    the two logs of what the client did to the outside. *)
Record State : Type := mkState {
  Token : string;
  Environment : string;
  Endpoint : string;
  Buffer : Z;
  FilterFields : Regexp;
  bodyChannel : list Body;   (* the reports waiting in the channel *)
  chanCap : Z;               (* cap(bodyChannel) *)
  waitGroup : Z;             (* the counter of waitGroup *)
  heap : gmap loc Params;
  stderrLog : list string;   (* lines written to os.Stderr *)
  posted : list Posted       (* calls of http.Post *)
}.

Definition set_Token (t : string) (s : State) : State :=
  mkState t (Environment s) (Endpoint s) (Buffer s) (FilterFields s)
    (bodyChannel s) (chanCap s) (waitGroup s) (heap s) (stderrLog s) (posted s).

Definition set_Buffer (b : Z) (s : State) : State :=
  mkState (Token s) (Environment s) (Endpoint s) b (FilterFields s)
    (bodyChannel s) (chanCap s) (waitGroup s) (heap s) (stderrLog s) (posted s).

Definition set_bodyChannel (q : list Body) (s : State) : State :=
  mkState (Token s) (Environment s) (Endpoint s) (Buffer s) (FilterFields s)
    q (chanCap s) (waitGroup s) (heap s) (stderrLog s) (posted s).

Definition set_waitGroup (n : Z) (s : State) : State :=
  mkState (Token s) (Environment s) (Endpoint s) (Buffer s) (FilterFields s)
    (bodyChannel s) (chanCap s) n (heap s) (stderrLog s) (posted s).

Definition set_heap (h : gmap loc Params) (s : State) : State :=
  mkState (Token s) (Environment s) (Endpoint s) (Buffer s) (FilterFields s)
    (bodyChannel s) (chanCap s) (waitGroup s) h (stderrLog s) (posted s).

Definition set_stderrLog (l : list string) (s : State) : State :=
  mkState (Token s) (Environment s) (Endpoint s) (Buffer s) (FilterFields s)
    (bodyChannel s) (chanCap s) (waitGroup s) (heap s) l (posted s).

Definition set_posted (l : list Posted) (s : State) : State :=
  mkState (Token s) (Environment s) (Endpoint s) (Buffer s) (FilterFields s)
    (bodyChannel s) (chanCap s) (waitGroup s) (heap s) (stderrLog s) l.

(** How a call that may park its goroutine ends. *)
Inductive Outcome : Type :=
  | Returns (s : State)   (* the call returned *)
  | Blocks (s : State)    (* the goroutine waits on the channel *)
  | Panics.

(** *** Setup *)

(** [regexp.MustCompile("password|secret|token")] *)
Definition defaultFilterFields : Regexp :=
  Alternate (Literal "password") (Alternate (Literal "secret") (Literal "token")).

(** The package variables as declared, and [init]: the channel is made
    with capacity [Buffer]. *)
Definition init (h : gmap loc Params) : State :=
  let Buffer := 1000 in
  mkState "" "development" "https://api.rollbar.com/api/1/item/" Buffer
    defaultFilterFields [] Buffer 0 h [] [].

(** *** stderr *)

Definition stderr (message : string) (s : State) : State :=
  set_stderrLog (stderrLog s ++ ["Rollbar error: " +:+ message +:+ newline]) s.

(** *** Building a report *)

(** Build the main JSON structure that will be sent to Rollbar with the
    appropriate metadata. *)
Definition buildBody (env : Env) (s : State) (level title : string) : Body :=
  let timestamp := now env in
  let hostname := hostname env in
  list_to_map [
    ("access_token", VString (Token s));
    ("data", VMap (list_to_map [
       ("environment", VString (Environment s));
       ("title", VString title);
       ("level", VString level);
       ("timestamp", VInt timestamp);
       ("platform", VString (GOOS env));
       ("language", VString "go");
       ("server", VMap (list_to_map [ ("host", VString hostname) ]));
       ("notifier", VMap (list_to_map [
          ("name", VString NAME);
          ("version", VString VERSION) ]))
    ]))
  ].

(** [data := body["data"].(map[string]interface{}); data[key] = v]: the
    assignment goes through the reference into [body]. The assertion
    cannot fail on a body made by [buildBody]. *)
Definition setData (key : string) (v : value) (body : Body) : Body :=
  match body !! "data" with
  | Some (VMap data) => <["data" := VMap (<[key := v]> data)]> body
  | _ => body
  end.

(** [body["data"][key]] *)
Definition getData (key : string) (body : Body) : option value :=
  match body !! "data" with
  | Some (VMap data) => data !! key
  | _ => None
  end.

(** Build a message inner-body for the given message string. *)
Definition messageBody (s : string) : Body :=
  list_to_map [ ("message", VMap (list_to_map [ ("body", VString s) ])) ].

Definition errorClass (err : GoError) : string :=
  let class := errType err in
  if String.eqb class "" then "panic"
  else if String.eqb class "*errors.errorString" then
    let checksum := Adler32.Checksum (errText err) in
    "{" +:+ Fmt.Sprintf_x checksum +:+ "}"
  else TrimPrefix class "*".

(** The text of one frame and of a stack, frame after frame. *)
Definition frameText (f : Frame) : string :=
  Filename f +:+ Method f +:+ Fmt.Sprintf_d (Line f).

Fixpoint stackText (stack : Stack) : string :=
  match stack with
  | [] => ""
  | f :: stack' => frameText f +:+ stackText stack'
  end.

Definition hexDigit (d : Z) : ascii :=
  match String.get (Z.to_nat d) "0123456789abcdef" with
  | Some c => c
  | None => "0"%char
  end.

(** [n] in [w] lower-case hexadecimal digits. *)
Fixpoint hexFixed (w : nat) (n : Z) : string :=
  match w with
  | O => ""
  | S w' => hexFixed w' (n / 16) +:+ String (hexDigit (n mod 16)) ""
  end.

(** Modelled from the spec: the method [Fingerprint] of [Stack], which
    [errorBody] calls and stack.go does not define.  The spec (4.2): it
    "concatenates a canonical representation of every frame in the stack
    (filename + function + line, in stack order) and runs it through a fast
    non-cryptographic checksum (32-bit is sufficient ...). Encodes the
    checksum as a fixed-width lowercase hexadecimal string."  The checksum
    is the one [errorClass] uses, which the spec (4.4) calls the "same
    checksum algorithm as fingerprinting". *)
Definition Fingerprint (stack : Stack) : string :=
  hexFixed 8 (Adler32.Checksum (stackText stack)).

(** Build an error inner-body for the given error. If skip is provided,
    that number of stack trace frames will be skipped. *)
Definition errorBody (env : Env) (err : GoError) (skip : Z) : Body * string :=
  let stack := BuildStack (callers env) (3 + skip) in
  let fingerprint := Fingerprint stack in
  let errBody : Body := list_to_map [
    ("trace", VMap (list_to_map [
       ("frames", VStack stack);
       ("exception", VMap (list_to_map [
          ("class", VString (errorClass err));
          ("message", VString (errText err)) ]))
    ]))
  ] in
  (errBody, fingerprint).

(** *** Filtering request parameters *)

(** The loop of [filterParams] over the keys of the map, assigning into
    the same map. *)
Definition filterLoop (re : Regexp) (values : Params) : Params :=
  map_fold (fun key _ acc =>
              if Match re key then <[key := [FILTERED]]> acc else acc)
           values values.

(** filterParams filters sensitive information like passwords from being
    sent to Rollbar.  The map is changed where it is; the reference that
    came in is the one returned.  Ranging over the nil map does nothing. *)
Definition filterParams (values : Values) (s : State) : Values * State :=
  match values with
  | None => (values, s)
  | Some l =>
      match heap s !! l with
      | Some m => (values, set_heap (<[l := filterLoop (FilterFields s) m]> (heap s)) s)
      | None => (values, s)
      end
  end.

(** Reading through a reference; the nil map reads as empty. *)
Definition deref (values : Values) (s : State) : Params :=
  match values with
  | Some l => default ∅ (heap s !! l)
  | None => ∅
  end.

Definition flattenValue (v : list string) : value :=
  match v with
  | [x] => VString x
  | _ => VStrings v
  end.

Definition flattenValues (values : Params) : Body :=
  flattenValue <$> values.

(** *** The queue, the worker and the entry points *)

Section Client.

(** The library calls whose results the client only passes on:
    [json.Marshal] (a document or an error), [http.Post] on an endpoint
    and a document, and [url.Values.Encode]. *)
Variable Marshal : Body -> string + string.
Variable http_Post : string -> string -> PostResult.
Variable Encode : Params -> string.

(** Extract error details from a Request to a format that Rollbar accepts.
    [r.URL.Query()] makes a new map, stored here at a location the heap
    does not use yet. *)
Definition errorRequest (r : Request) (s : State) : Body * State :=
  let lq := fresh (dom (heap s)) in
  let s := set_heap (<[lq := URL_Query r]> (heap s)) s in
  let '(cleanQuery, s) := filterParams (Some lq) s in
  let query_string := Encode (deref cleanQuery s) in
  let GET := flattenValues (deref cleanQuery s) in
  let '(cleanForm, s) := filterParams (Form r) s in
  (list_to_map [
     ("url", VString (URL_String r));
     ("method", VString (Method_ r));
     ("headers", VMap (flattenValues (Header r)));
     ("query_string", VString query_string);
     ("GET", VMap GET);
     ("POST", VMap (flattenValues (deref cleanForm s)))
   ], s).

(** Queue the given JSON body to be POSTed to Rollbar.  A send on a
    channel that holds [cap] elements parks the sender. *)
Definition push (body : Body) (s : State) : Outcome :=
  if Z.of_nat (length (bodyChannel s)) <? Buffer s then
    let s := set_waitGroup (waitGroup s + 1) s in
    if Z.of_nat (length (bodyChannel s)) <? chanCap s
    then Returns (set_bodyChannel (bodyChannel s ++ [body]) s)
    else Blocks s
  else
    Returns (stderr "buffer full, dropping error on the floor" s).

(** POST the given JSON body to Rollbar synchronously. *)
Definition post (body : Body) (s : State) : State :=
  if len (Token s) =? 0 then stderr "empty token" s
  else
    match Marshal body with
    | inr err => stderr ("failed to encode payload: " +:+ err) s
    | inl jsonBody =>
        let s := set_posted
                   (posted s ++ [mkPosted (Endpoint s) "application/json" jsonBody]) s in
        match http_Post (Endpoint s) jsonBody with
        | PostFailed err => stderr ("POST failed: " +:+ err) s
        | Response StatusCode Status =>
            if negb (StatusCode =? 200)
            then stderr ("received response: " +:+ Status) s
            else s
        end
    end.

(** One turn of the loop of the goroutine started by [init]: receive a
    body, [post] it, [waitGroup.Done()].  [Done] panics when it would take
    the counter below zero. *)
Definition worker_step (s : State) : Outcome :=
  match bodyChannel s with
  | [] => Blocks s
  | body :: rest =>
      let s := post body (set_bodyChannel rest s) in
      if waitGroup s - 1 <? 0 then Panics
      else Returns (set_waitGroup (waitGroup s - 1) s)
  end.

(** ErrorWithStackSkip asynchronously sends an error to Rollbar with the
    given severity level and a given number of stack trace frames skipped. *)
Definition ErrorWithStackSkip_body (env : Env) (s : State)
    (level : string) (err : GoError) (skip : Z) : Body :=
  let body := buildBody env s level (errText err) in
  let '(errBody, fingerprint) := errorBody env err skip in
  let body := setData "body" (VMap errBody) body in
  setData "fingerprint" (VString fingerprint) body.

Definition ErrorWithStackSkip (env : Env) (level : string) (err : GoError)
    (skip : Z) (s : State) : Outcome :=
  push (ErrorWithStackSkip_body env s level err skip) s.

(** Error asynchronously sends an error to Rollbar with the given severity
    level. *)
Definition Error (env : Env) (level : string) (err : GoError) (s : State)
    : Outcome :=
  ErrorWithStackSkip env level err 1 s.

(** RequestErrorWithStackSkip asynchronously sends an error to Rollbar
    with the given severity level and a given number of stack trace frames
    skipped, in addition to extra request-specific information. *)
Definition RequestErrorWithStackSkip_body (env : Env) (s : State)
    (level : string) (r : Request) (err : GoError) (skip : Z) : Body * State :=
  let body := buildBody env s level (errText err) in
  let '(errBody, fingerprint) := errorBody env err skip in
  let body := setData "body" (VMap errBody) body in
  let body := setData "fingerprint" (VString fingerprint) body in
  let '(request, s) := errorRequest r s in
  (setData "request" (VMap request) body, s).

Definition RequestErrorWithStackSkip (env : Env) (level : string)
    (r : Request) (err : GoError) (skip : Z) (s : State) : Outcome :=
  let '(body, s) := RequestErrorWithStackSkip_body env s level r err skip in
  push body s.

(** RequestError asynchronously sends an error to Rollbar with the given
    severity level and request-specific information. *)
Definition RequestError (env : Env) (level : string) (r : Request)
    (err : GoError) (s : State) : Outcome :=
  RequestErrorWithStackSkip env level r err 1 s.

(** Message asynchronously sends a message to Rollbar with the given
    severity level. *)
Definition Message_body (env : Env) (s : State) (level msg : string) : Body :=
  let body := buildBody env s level msg in
  setData "body" (VMap (messageBody msg)) body.

Definition Message (env : Env) (level msg : string) (s : State) : Outcome :=
  push (Message_body env s level msg) s.

(** Wait will block until the queue of errors / messages is empty: it
    returns once the counter of [waitGroup] is zero. *)
Definition Wait (s : State) : Outcome :=
  if waitGroup s =? 0 then Returns s else Blocks s.

End Client.

(** *** Vocabulary of the statements *)

(** Every report in the channel has been counted by [waitGroup.Add]. *)
Definition pending_inv (s : State) : Prop :=
  Z.of_nat (length (bodyChannel s)) <= waitGroup s.

(** The state a call leaves behind, unless it panics. *)
Definition state_of (o : Outcome) : option State :=
  match o with
  | Returns s | Blocks s => Some s
  | Panics => None
  end.

(** The value of a hexadecimal digit. *)
Definition hexValue (c : ascii) : Z :=
  Index "0123456789abcdef" (String c "").

(** Two frames with the same file name, method and line. *)
Definition sameFrame (f g : Frame) : Prop :=
  Filename f = Filename g /\ Method f = Method g /\ Line f = Line g.

(** The fingerprint of the spec over a checksum given as a parameter. *)
Definition FingerprintWith (checksum : string -> Z) (stack : Stack) : string :=
  hexFixed 8 (checksum (stackText stack)).

(** *** States and requests of the examples *)

(** A channel of capacity two that holds two reports. *)
Definition full_of_two : State :=
  mkState "" "development" "https://api.rollbar.com/api/1/item/" 2
    defaultFilterFields [messageBody "a"; messageBody "b"] 2 2 ∅ [] [].

(** A channel of capacity two that holds two reports, after [Buffer] was
    set to five. *)
Definition full_with_Buffer_raised : State :=
  mkState "" "development" "https://api.rollbar.com/api/1/item/" 5
    defaultFilterFields [messageBody "a"; messageBody "b"] 2 2 ∅ [] [].

(** One report waiting, no token set. *)
Definition one_waiting : State :=
  mkState "" "development" "https://api.rollbar.com/api/1/item/" 1000
    defaultFilterFields [messageBody "a"] 1000 1 ∅ [] [].

(** A request whose form holds a password and a user name. *)
Definition login_form : Params :=
  <["password" := ["abc"]]> (<["username" := ["bob"]]> ∅).

Definition login_request : Request :=
  mkRequest "http://example.com/login?token=t0" {[ "token" := ["t0"] ]}
    "POST" ∅ (Some 1%positive).

(** The envelope that [buildBody] makes for a level and a title, as it
    shows in a finished body. *)
Definition envelope (env : Env) (s : State) (level title : string)
    (body : Body) : Prop :=
  body !! "access_token" = Some (VString (Token s)) /\
  getData "environment" body = Some (VString (Environment s)) /\
  getData "title" body = Some (VString title) /\
  getData "level" body = Some (VString level) /\
  getData "timestamp" body = Some (VInt (now env)) /\
  getData "platform" body = Some (VString (GOOS env)) /\
  getData "language" body = Some (VString "go") /\
  getData "server" body
  = Some (VMap (list_to_map [ ("host", VString (hostname env)) ])) /\
  getData "notifier" body
  = Some (VMap (list_to_map [ ("name", VString NAME);
                              ("version", VString VERSION) ])).

(** The inner body of an error report with the given frames. *)
Definition traceBody (stack : Stack) (err : GoError) : Body :=
  list_to_map [
    ("trace", VMap (list_to_map [
       ("frames", VStack stack);
       ("exception", VMap (list_to_map [
          ("class", VString (errorClass err));
          ("message", VString (errText err)) ])) ])) ].

(** *** The loop of the worker and the runs of the client *)

(** [n] turns of the loop [for body := range bodyChannel] of the worker;
    the loop stops early where a turn does not return. *)
Fixpoint worker_turns (Marshal : Body -> string + string)
    (http_Post : string -> string -> PostResult) (n : nat) (s : State)
    : Outcome :=
  match n with
  | O => Returns s
  | S n' =>
      match worker_step Marshal http_Post s with
      | Returns s' => worker_turns Marshal http_Post n' s'
      | o => o
      end
  end.

(** One [push] after the other, for as long as they return. *)
Fixpoint pushes (bodies : list Body) (s : State) : Outcome :=
  match bodies with
  | [] => Returns s
  | body :: bodies' =>
      match push body s with
      | Returns s' => pushes bodies' s'
      | o => o
      end
  end.

(** The line that [push] writes when it drops a report. *)
Definition dropped_line : string :=
  "Rollbar error: buffer full, dropping error on the floor" +:+ newline.

(** The call of [http.Post] that [post] makes for a body, if it makes
    one. *)
Definition delivery (Marshal : Body -> string + string) (s : State)
    (body : Body) : option Posted :=
  if len (Token s) =? 0 then None
  else match Marshal body with
       | inl jsonBody => Some (mkPosted (Endpoint s) "application/json" jsonBody)
       | inr _ => None
       end.

(** A reference is nil or points at a map of the heap. *)
Definition valid_ref (values : Values) (s : State) : Prop :=
  match values with
  | None => True
  | Some l => is_Some (heap s !! l)
  end.



(** A state with two reports waiting and a token set. *)
Definition two_waiting : State :=
  mkState "MY_TOKEN" "development" "https://api.rollbar.com/api/1/item/" 1000
    defaultFilterFields [messageBody "a"; messageBody "b"] 1000 2 ∅ [] [].

End Rollbar.

(** ** rollbar.go, version 0.1.0

    The older variant of the file has no request reports and no filter.
    Its entry points differ from those of 0.2.0 in one place: the title is
    the first of the two parts that [strings.SplitN(text, "\n", 2)] gives. *)

Module Legacy.
Import GoStrings StackTrace Rollbar.

Definition VERSION : string := "0.1.0".

Definition buildBody (env : Env) (s : State) (level title : string) : Body :=
  let timestamp := now env in
  let hostname := hostname env in
  list_to_map [
    ("access_token", VString (Token s));
    ("data", VMap (list_to_map [
       ("environment", VString (Environment s));
       ("title", VString title);
       ("level", VString level);
       ("timestamp", VInt timestamp);
       ("platform", VString (GOOS env));
       ("language", VString "go");
       ("server", VMap (list_to_map [ ("host", VString hostname) ]));
       ("notifier", VMap (list_to_map [
          ("name", VString NAME);
          ("version", VString VERSION) ]))
    ]))
  ].

Definition ErrorWithStackSkip_body (env : Env) (s : State)
    (level : string) (err : GoError) (skip : Z) : Body :=
  let parts_0 := SplitN2_first (errText err) newline in
  let body := buildBody env s level parts_0 in
  let '(errBody, fingerprint) := errorBody env err skip in
  let body := setData "body" (VMap errBody) body in
  setData "fingerprint" (VString fingerprint) body.

Definition ErrorWithStackSkip (env : Env) (level : string) (err : GoError)
    (skip : Z) (s : State) : Outcome :=
  push (ErrorWithStackSkip_body env s level err skip) s.

Definition Message_body (env : Env) (s : State) (level msg : string) : Body :=
  let parts_0 := SplitN2_first msg newline in
  let body := buildBody env s level parts_0 in
  setData "body" (VMap (messageBody msg)) body.

Definition Message (env : Env) (level msg : string) (s : State) : Outcome :=
  push (Message_body env s level msg) s.

End Legacy.

(** ** errors.go

    The file comes in two variants that word the message of
    [ErrHttpError] differently. *)

Module Errors.

(** [ErrNoToken.Error()] *)
Definition ErrNoToken_Error : string := "rollbar: No token set.".

(** [ErrHttpError.Error()], first variant. *)
Definition ErrHttpError_Error_replied (e : Z) : string :=
  "rollbar: The rollbar service replied with " +:+ Fmt.Sprintf_d e
  +:+ " http status code.".

(** [ErrHttpError.Error()], second variant. *)
Definition ErrHttpError_Error (e : Z) : string :=
  "rollbar: service returned status: " +:+ Fmt.Sprintf_d e.

End Errors.

(** * Part II: the properties *)

(** ** Facts about Go's string functions *)

Module GoStringsFacts.
Import GoStrings.

Lemma sapp_cons (a : ascii) (s t : string) :
  String a s +:+ t = String a (s +:+ t).
Proof. reflexivity. Qed.

Lemma sapp_nil_l (s : string) : "" +:+ s = s.
Proof. reflexivity. Qed.

Lemma sapp_nil_r (s : string) : s +:+ "" = s.
Proof. induction s as [|a s IH]; [reflexivity|]. rewrite sapp_cons, IH. reflexivity. Qed.

Lemma sapp_assoc (s t u : string) : (s +:+ t) +:+ u = s +:+ t +:+ u.
Proof.
  induction s as [|a s IH]; [reflexivity|].
  rewrite !sapp_cons, IH. reflexivity.
Qed.

Lemma slength_app (s t : string) :
  String.length (s +:+ t) = (String.length s + String.length t)%nat.
Proof.
  induction s as [|a s IH]; [reflexivity|].
  rewrite sapp_cons. simpl. rewrite IH. reflexivity.
Qed.

Lemma HasPrefix_app (p rest : string) : HasPrefix (p +:+ rest) p = true.
Proof.
  induction p as [|c p IH]; [destruct rest; reflexivity|].
  rewrite sapp_cons. simpl. rewrite Ascii.eqb_refl. exact IH.
Qed.

Lemma HasPrefix_inv (s p : string) :
  HasPrefix s p = true -> exists rest, s = p +:+ rest.
Proof.
  revert s. induction p as [|c p IH]; intros s H.
  - exists s. reflexivity.
  - destruct s as [|d s]; [discriminate|]. simpl in H.
    destruct (Ascii.eqb c d) eqn:E; [|discriminate].
    apply Ascii.eqb_eq in E. subst d.
    destruct (IH _ H) as [rest ->]. exists rest. reflexivity.
Qed.

Lemma sdrop_app_length (pre s : string) :
  sdrop (String.length pre) (pre +:+ s) = s.
Proof.
  induction pre as [|a pre IH]; [reflexivity|].
  rewrite sapp_cons. simpl. exact IH.
Qed.

Lemma stake_app_length (pre s : string) :
  stake (String.length pre) (pre +:+ s) = pre.
Proof.
  induction pre as [|a pre IH]; [destruct s; reflexivity|].
  rewrite sapp_cons. simpl. rewrite IH. reflexivity.
Qed.

Lemma sdrop_add (n m : nat) (s : string) : sdrop (n + m) s = sdrop m (sdrop n s).
Proof.
  revert s. induction n as [|n IH]; intros s; [reflexivity|].
  destruct s as [|a s]; simpl; [destruct m; reflexivity|]. apply IH.
Qed.

Lemma sdrop_suffix (n : nat) (s : string) :
  exists pre, s = pre +:+ sdrop n s.
Proof.
  revert s. induction n as [|n IH]; intros s.
  - exists "". reflexivity.
  - destruct s as [|a s]; [exists ""; reflexivity|].
    destruct (IH s) as [pre Hpre]. exists (String a pre).
    rewrite sapp_cons. simpl. rewrite <- Hpre. reflexivity.
Qed.

Lemma Index_nil (sub : string) :
  Index "" sub = if HasPrefix "" sub then 0 else -1.
Proof. reflexivity. Qed.

Lemma Index_cons (a : ascii) (s sub : string) :
  Index (String a s) sub =
  if HasPrefix (String a s) sub then 0
  else if Index s sub <? 0 then -1 else Index s sub + 1.
Proof. reflexivity. Qed.

Lemma Index_range (s sub : string) : Index s sub = -1 \/ 0 <= Index s sub.
Proof.
  induction s as [|a s IH]; [rewrite Index_nil|rewrite Index_cons].
  - destruct (HasPrefix "" sub); lia.
  - destruct (HasPrefix (String a s) sub); [lia|].
    destruct (Z.ltb_spec (Index s sub) 0); lia.
Qed.

(** A found index splits the string at the first instance. *)
Lemma Index_found (s sub : string) (i : Z) :
  Index s sub = i -> 0 <= i ->
  exists pre rest,
    s = pre +:+ sub +:+ rest /\ Z.of_nat (String.length pre) = i /\
    (forall pre' rest', s = pre' +:+ sub +:+ rest' ->
       (String.length pre <= String.length pre')%nat).
Proof.
  revert i. induction s as [|a s IH]; intros i Hi Hpos;
    [rewrite Index_nil in Hi|rewrite Index_cons in Hi].
  - destruct (HasPrefix "" sub) eqn:Hp; [|lia].
    apply HasPrefix_inv in Hp as [rest Hr].
    exists "", rest. subst i. repeat split; [exact Hr|]. intros; simpl; lia.
  - destruct (HasPrefix (String a s) sub) eqn:Hp.
    + apply HasPrefix_inv in Hp as [rest Hr].
      exists "", rest. subst i. repeat split; [exact Hr|]. intros; simpl; lia.
    + destruct (Z.ltb_spec (Index s sub) 0) as [Hneg|Hge]; [lia|].
      destruct (IH _ eq_refl Hge) as (pre & rest & Hs & Hlen & Hmin).
      exists (String a pre), rest. repeat split.
      * rewrite sapp_cons. f_equal. exact Hs.
      * simpl String.length. lia.
      * intros pre' rest' Hs'. destruct pre' as [|b pre'].
        -- rewrite sapp_nil_l in Hs'. rewrite Hs', HasPrefix_app in Hp.
           discriminate.
        -- rewrite sapp_cons in Hs'. injection Hs' as _ Hs'.
           specialize (Hmin _ _ Hs'). simpl. lia.
Qed.

(** [-1] is returned only when there is no instance at all. *)
Lemma Index_absent (s sub : string) :
  Index s sub = -1 -> ~ Contains s sub.
Proof.
  induction s as [|a s IH]; [rewrite Index_nil|rewrite Index_cons];
    intros Hi (pre & rest & Hs).
  - destruct (HasPrefix "" sub) eqn:Hp; [lia|].
    destruct pre; [|discriminate]. rewrite sapp_nil_l in Hs.
    rewrite Hs, HasPrefix_app in Hp. discriminate.
  - destruct (HasPrefix (String a s) sub) eqn:Hp; [lia|].
    destruct (Z.ltb_spec (Index s sub) 0) as [Hneg|Hge]; [|lia].
    destruct pre as [|b pre].
    + rewrite sapp_nil_l in Hs. rewrite Hs, HasPrefix_app in Hp. discriminate.
    + rewrite sapp_cons in Hs. injection Hs as _ Hs. apply IH.
      * destruct (Index_range s sub); lia.
      * exists pre, rest. exact Hs.
Qed.

Lemma Index_present (s sub : string) :
  Contains s sub -> 0 <= Index s sub.
Proof.
  intros (pre & rest & ->). induction pre as [|a pre IH].
  - rewrite sapp_nil_l.
    destruct (sub +:+ rest) eqn:E; [rewrite Index_nil|rewrite Index_cons];
      rewrite <- ?E, HasPrefix_app; lia.
  - rewrite sapp_cons, Index_cons.
    destruct (HasPrefix _ sub); [lia|].
    destruct (Z.ltb_spec (Index (pre +:+ sub +:+ rest) sub) 0); lia.
Qed.

Lemma Index_absent_iff (s sub : string) :
  Index s sub = -1 <-> ~ Contains s sub.
Proof.
  split; [apply Index_absent|]. intros Hn.
  destruct (Index_range s sub) as [H|H]; [exact H|].
  destruct (Index_found _ _ _ eq_refl H) as (pre & rest & Hs & _).
  exfalso. apply Hn. exists pre, rest. exact Hs.
Qed.

(** An instance inside a suffix is an instance inside the whole. *)
Lemma Contains_drop (n : nat) (s sub : string) :
  Contains (sdrop n s) sub -> Contains s sub.
Proof.
  intros (pre & rest & Hd). destruct (sdrop_suffix n s) as [p Hp].
  exists (p +:+ pre), rest. rewrite sapp_assoc, <- Hd. exact Hp.
Qed.

(** *** [LastIndex] *)

Lemma LastIndex_nil (sub : string) :
  LastIndex "" sub = if HasPrefix "" sub then 0 else -1.
Proof. reflexivity. Qed.

Lemma LastIndex_cons (a : ascii) (s sub : string) :
  LastIndex (String a s) sub =
  if 0 <=? LastIndex s sub then LastIndex s sub + 1
  else if HasPrefix (String a s) sub then 0 else -1.
Proof. reflexivity. Qed.

Lemma LastIndex_range (s sub : string) :
  LastIndex s sub = -1 \/ 0 <= LastIndex s sub.
Proof.
  induction s as [|a s IH]; [rewrite LastIndex_nil|rewrite LastIndex_cons].
  - destruct (HasPrefix "" sub); lia.
  - destruct (Z.leb_spec 0 (LastIndex s sub)); [lia|].
    destruct (HasPrefix (String a s) sub); lia.
Qed.

Lemma LastIndex_absent (s sub : string) :
  LastIndex s sub = -1 -> ~ Contains s sub.
Proof.
  induction s as [|a s IH]; [rewrite LastIndex_nil|rewrite LastIndex_cons];
    intros Hi (pre & rest & Hs).
  - destruct (HasPrefix "" sub) eqn:Hp; [lia|].
    destruct pre; [|discriminate]. rewrite sapp_nil_l in Hs.
    rewrite Hs, HasPrefix_app in Hp. discriminate.
  - destruct (Z.leb_spec 0 (LastIndex s sub)) as [Hge|Hneg]; [lia|].
    destruct (HasPrefix (String a s) sub) eqn:Hp; [lia|].
    destruct pre as [|b pre].
    + rewrite sapp_nil_l in Hs. rewrite Hs, HasPrefix_app in Hp. discriminate.
    + rewrite sapp_cons in Hs. injection Hs as _ Hs. apply IH.
      * destruct (LastIndex_range s sub); lia.
      * exists pre, rest. exact Hs.
Qed.

(** A found index splits the string at the last instance. *)
Lemma LastIndex_found (s sub : string) (i : Z) :
  LastIndex s sub = i -> 0 <= i ->
  exists pre rest,
    s = pre +:+ sub +:+ rest /\ Z.of_nat (String.length pre) = i /\
    (forall pre' rest', s = pre' +:+ sub +:+ rest' ->
       (String.length pre' <= String.length pre)%nat).
Proof.
  revert i. induction s as [|a s IH]; intros i Hi Hpos;
    [rewrite LastIndex_nil in Hi|rewrite LastIndex_cons in Hi].
  - destruct (HasPrefix "" sub) eqn:Hp; [|lia].
    apply HasPrefix_inv in Hp as [rest Hr].
    exists "", rest. subst i. split; [exact Hr|]. split; [reflexivity|].
    intros pre' rest' Hs. destruct pre'; [simpl; lia|discriminate].
  - destruct (Z.leb_spec 0 (LastIndex s sub)) as [Hge|Hneg].
    + destruct (IH _ eq_refl Hge) as (pre & rest & Hs & Hlen & Hmax).
      exists (String a pre), rest. split; [rewrite sapp_cons; f_equal; exact Hs|].
      split; [simpl String.length; lia|].
      intros pre' rest' Hs'. destruct pre' as [|b pre']; [simpl; lia|].
      rewrite sapp_cons in Hs'. injection Hs' as _ Hs'.
      specialize (Hmax _ _ Hs'). simpl. lia.
    + destruct (HasPrefix (String a s) sub) eqn:Hp; [|lia].
      apply HasPrefix_inv in Hp as [rest Hr].
      exists "", rest. subst i. split; [exact Hr|]. split; [reflexivity|].
      intros pre' rest' Hs'. destruct pre' as [|b pre']; [simpl; lia|].
      exfalso. rewrite sapp_cons in Hs'. injection Hs' as _ Hs'.
      apply (LastIndex_absent s sub).
      * destruct (LastIndex_range s sub); lia.
      * exists pre', rest'. exact Hs'.
Qed.

End GoStringsFacts.

(** ** Facts about stack.go *)

Module StackTraceFacts.
Import GoStrings GoStringsFacts StackTrace.

(** *** The examples of the source's comment and of stack_test.go *)

Example shortenFilePath_doc_1 :
  shortenFilePath "/usr/local/go/src/pkg/runtime/proc.c" = "pkg/runtime/proc.c".
Proof. reflexivity. Qed.

Example shortenFilePath_doc_2 :
  shortenFilePath "/home/foo/go/src/github.com/rollbar/rollbar.go"
  = "github.com/rollbar/rollbar.go".
Proof. reflexivity. Qed.

Example functionName_qualified :
  functionName (Some "github.com/stvp/rollbar.TestBuildStack")
  = "rollbar.TestBuildStack".
Proof. reflexivity. Qed.

Example BuildStack_test :
  BuildStack
    [ mkCaller "/go/src/github.com/stvp/rollbar/stack.go" 33
        (Some "github.com/stvp/rollbar.BuildStack");
      mkCaller "/go/src/github.com/stvp/rollbar/stack_test.go" 8
        (Some "github.com/stvp/rollbar.TestBuildStack") ] 1
  = [ mkFrame "github.com/stvp/rollbar/stack_test.go"
        "rollbar.TestBuildStack" 8 ].
Proof. reflexivity. Qed.

(** *** First instances *)

Lemma FirstAt_Index (s sub pre rest : string) :
  FirstAt s sub pre rest <->
  s = pre +:+ sub +:+ rest /\ Index s sub = Z.of_nat (String.length pre).
Proof.
  split.
  - intros [Hs Hmin].
    assert (Hc : Contains s sub) by (exists pre, rest; exact Hs).
    apply Index_present in Hc.
    destruct (Index_found _ _ _ eq_refl Hc) as (p & r & Hs' & Hlen & Hmin').
    split; [exact Hs|].
    specialize (Hmin _ _ Hs'). specialize (Hmin' _ _ Hs). lia.
  - intros [Hs Hi]. split; [exact Hs|]. intros pre' rest' Hs'.
    assert (Hpos : 0 <= Index s sub) by lia.
    destruct (Index_found _ _ _ eq_refl Hpos) as (p & r & _ & Hlen & Hmin).
    specialize (Hmin _ _ Hs'). lia.
Qed.

Lemma FirstAt_drop (s sub pre rest : string) :
  FirstAt s sub pre rest ->
  forall k : nat, (k <= String.length sub)%nat ->
  sliceFrom s (Index s sub + Z.of_nat k) = sdrop k sub +:+ rest.
Proof.
  intros H k Hk. apply FirstAt_Index in H as [Hs Hi].
  unfold sliceFrom. rewrite Hi, <- Nat2Z.inj_add, Nat2Z.id, sdrop_add.
  rewrite Hs at 1. rewrite sdrop_app_length.
  clear Hs Hi. revert sub Hk. induction k as [|k IH]; intros sub Hk.
  - reflexivity.
  - destruct sub as [|a sub]; [simpl in Hk; lia|].
    rewrite sapp_cons. simpl. apply IH. simpl in Hk. lia.
Qed.

Lemma Contains_FirstAt (s sub : string) :
  Contains s sub -> exists pre rest, FirstAt s sub pre rest.
Proof.
  intros Hc. apply Index_present in Hc.
  destruct (Index_found _ _ _ eq_refl Hc) as (pre & rest & Hs & Hlen & Hmin).
  exists pre, rest. split; assumption.
Qed.

(** *** The loop over the hosting markers *)

Lemma shortenKnown_none (ps : list string) (s : string) :
  (forall p, In p ps -> ~ Contains s p) -> shortenKnown ps s = s.
Proof.
  induction ps as [|p ps IH]; intros H; [reflexivity|]. simpl.
  assert (Hp : Index s p = -1) by (apply Index_absent_iff, H; left; reflexivity).
  rewrite Hp. simpl. apply IH. intros q Hq. apply H. right. exact Hq.
Qed.

Lemma shortenKnown_found (before after : list string) (p s : string) :
  (forall q, In q before -> ~ Contains s q) ->
  Contains s p ->
  shortenKnown (before ++ p :: after) s = sliceFrom s (Index s p).
Proof.
  intros Hb Hp. induction before as [|q before IH]; simpl.
  - apply Index_present in Hp.
    destruct (Z.eqb_spec (Index s p) (-1)); [lia|reflexivity].
  - assert (Hq : Index s q = -1)
      by (apply Index_absent_iff, Hb; left; reflexivity).
    rewrite Hq. simpl. apply IH. intros r Hr. apply Hb. right. exact Hr.
Qed.

(** Every run of the loop is one of the two cases above. *)
Lemma shortenKnown_cases (ps : list string) (s : string) :
  (forall p, In p ps -> ~ Contains s p) \/
  exists before p after,
    ps = before ++ p :: after /\
    (forall q, In q before -> ~ Contains s q) /\ Contains s p.
Proof.
  induction ps as [|p ps IH]; [left; intros ? []|].
  destruct (Index_range s p) as [Hp|Hp].
  - apply Index_absent_iff in Hp. destruct IH as [IH|(b & q & a & -> & Hb & Hq)].
    + left. intros r [<-|Hr]; [exact Hp|apply IH, Hr].
    + right. exists (p :: b), q, a. repeat split; [|exact Hq].
      intros r [<-|Hr]; [exact Hp|apply Hb, Hr].
  - right. exists [], p, ps. repeat split; [intros ? []|].
    destruct (Index_found _ _ _ eq_refl Hp) as (pre & rest & Hs & _).
    exists pre, rest. exact Hs.
Qed.

(** *** Path normalisation, case by case *)

Lemma shortenFilePath_stdlib (s pre rest : string) :
  FirstAt s stdlibMarker pre rest ->
  shortenFilePath s = "pkg/" +:+ rest.
Proof.
  intros H. unfold shortenFilePath. fold stdlibMarker.
  pose proof (proj1 (FirstAt_Index _ _ _ _) H) as [_ Hi].
  destruct (Z.eqb_spec (Index s stdlibMarker) (-1)) as [E|_]; [lia|]. simpl.
  apply (FirstAt_drop _ _ _ _ H 5). simpl. lia.
Qed.

Lemma shortenFilePath_no_stdlib (s : string) :
  ~ Contains s stdlibMarker ->
  shortenFilePath s = shortenKnown knownFilePathPatterns s.
Proof.
  intros H. apply Index_absent_iff in H. unfold shortenFilePath.
  fold stdlibMarker. rewrite H. reflexivity.
Qed.

Lemma shortenFilePath_hosting (s p pre rest : string) (before after : list string) :
  ~ Contains s stdlibMarker ->
  knownFilePathPatterns = before ++ p :: after ->
  (forall q, In q before -> ~ Contains s q) ->
  FirstAt s p pre rest ->
  shortenFilePath s = p +:+ rest.
Proof.
  intros Hn Hk Hb Hp. rewrite shortenFilePath_no_stdlib by exact Hn.
  rewrite Hk, shortenKnown_found; [|exact Hb|exists pre, rest; apply Hp].
  replace (Index s p) with (Index s p + Z.of_nat 0) by lia.
  apply (FirstAt_drop _ _ _ _ Hp 0). lia.
Qed.

Lemma shortenFilePath_unchanged (s : string) :
  ~ Contains s stdlibMarker ->
  (forall p, In p knownFilePathPatterns -> ~ Contains s p) ->
  shortenFilePath s = s.
Proof.
  intros Hn Hk. rewrite shortenFilePath_no_stdlib by exact Hn.
  apply shortenKnown_none, Hk.
Qed.

(** C5 (as amended). Path normalisation: when the path has the
    standard-library marker "/src/pkg/", everything before the first
    instance of the marker is cut and the result is "pkg/" followed by what
    came after the marker; otherwise the hosting markers are tried in the
    order of [knownFilePathPatterns], and for the first one of the list that
    the path has, everything before its first instance is cut; otherwise
    the path is returned as it is.  The four paths of stack_test.go map as
    the test expects. *)
Theorem shortenFilePath_cases :
  (forall s pre rest,
     FirstAt s stdlibMarker pre rest -> shortenFilePath s = "pkg/" +:+ rest) /\
  (forall s p pre rest before after,
     ~ Contains s stdlibMarker ->
     knownFilePathPatterns = before ++ p :: after ->
     (forall q, In q before -> ~ Contains s q) ->
     FirstAt s p pre rest ->
     shortenFilePath s = p +:+ rest) /\
  (forall s,
     ~ Contains s stdlibMarker ->
     (forall p, In p knownFilePathPatterns -> ~ Contains s p) ->
     shortenFilePath s = s) /\
  shortenFilePath "/usr/local/go/src/pkg/runtime/proc.c" = "pkg/runtime/proc.c" /\
  shortenFilePath "/home/foo/go/src/github.com/stvp/rollbar.go"
    = "github.com/stvp/rollbar.go" /\
  shortenFilePath "foo.go" = "foo.go" /\
  shortenFilePath "" = "".
Proof.
  split; [exact shortenFilePath_stdlib|].
  split; [exact shortenFilePath_hosting|].
  split; [exact shortenFilePath_unchanged|].
  repeat split; reflexivity.
Qed.

(** The second case of [shortenFilePath_cases] at a path with two hosting
    markers: "github.com/" is tried first, although "bitbucket.org/" comes
    earlier in the path. *)
Lemma shortenFilePath_cases_witness :
  shortenFilePath "/go/src/bitbucket.org/t/p/vendor/github.com/x/y.go"
  = "github.com/" +:+ "x/y.go".
Proof.
  apply (proj1 (proj2 shortenFilePath_cases)
           "/go/src/bitbucket.org/t/p/vendor/github.com/x/y.go" "github.com/"
           "/go/src/bitbucket.org/t/p/vendor/" "x/y.go"
           [] ["code.google.com/"; "bitbucket.org/"; "launchpad.net/"]).
  - apply Index_absent_iff. reflexivity.
  - reflexivity.
  - intros q [].
  - apply FirstAt_Index. split; reflexivity.
Defined.

(** C5 (as stated) fails: the claim cuts everything before the first hosting
    marker of the path.  In the path below the first hosting marker is
    "bitbucket.org/", at index 8, yet the result starts at "github.com/". *)
Lemma shortenFilePath_not_first_marker :
  ~ (forall s p pre rest,
       ~ Contains s stdlibMarker ->
       In p knownFilePathPatterns ->
       s = pre +:+ p +:+ rest ->
       (forall q pre' rest', In q knownFilePathPatterns ->
          s = pre' +:+ q +:+ rest' ->
          (String.length pre <= String.length pre')%nat) ->
       shortenFilePath s = p +:+ rest).
Proof.
  intros H.
  specialize (H "/go/src/bitbucket.org/t/p/vendor/github.com/x/y.go"
                "bitbucket.org/" "/go/src/" "t/p/vendor/github.com/x/y.go").
  assert (Hgo : shortenFilePath
                  "/go/src/bitbucket.org/t/p/vendor/github.com/x/y.go"
                = "github.com/x/y.go") by reflexivity.
  rewrite Hgo in H. clear Hgo.
  assert (Hne : "github.com/x/y.go"
                <> "bitbucket.org/" +:+ "t/p/vendor/github.com/x/y.go")
    by discriminate.
  apply Hne, H; clear H Hne.
  - apply Index_absent_iff. reflexivity.
  - right. right. left. reflexivity.
  - reflexivity.
  - intros q pre' rest' Hq Hs.
    assert (Hi : 8 <= Index "/go/src/bitbucket.org/t/p/vendor/github.com/x/y.go" q).
    { destruct Hq as [<-|[<-|[<-|[<-|[]]]]].
      - vm_compute; discriminate.
      - exfalso. eapply Index_absent; [|exists pre', rest'; exact Hs]. reflexivity.
      - vm_compute; discriminate.
      - exfalso. eapply Index_absent; [|exists pre', rest'; exact Hs]. reflexivity. }
    assert (Hpos : 0 <= Index "/go/src/bitbucket.org/t/p/vendor/github.com/x/y.go" q) by lia.
    destruct (Index_found _ _ _ eq_refl Hpos) as (p0 & r0 & _ & Hlen & Hmin).
    specialize (Hmin _ _ Hs). change (String.length "/go/src/") with 8%nat. lia.
Qed.

(** *** Normalising twice *)

Lemma slength_drop (n : nat) (s : string) :
  String.length (sdrop n s) = (String.length s - n)%nat.
Proof.
  revert s. induction n as [|n IH]; intros s; simpl; [lia|].
  destruct s as [|a s]; simpl; [reflexivity|]. apply IH.
Qed.

Lemma not_Contains_drop (n : nat) (s sub : string) :
  ~ Contains s sub -> ~ Contains (sdrop n s) sub.
Proof. intros H Hc. apply H. eapply Contains_drop. exact Hc. Qed.

(** Without the standard-library marker a second pass changes nothing. *)
Lemma shortenFilePath_idempotent_no_stdlib (s : string) :
  ~ Contains s stdlibMarker ->
  shortenFilePath (shortenFilePath s) = shortenFilePath s.
Proof.
  intros Hn.
  destruct (shortenKnown_cases knownFilePathPatterns s)
    as [Hnone|(before & p & after & Hk & Hb & Hp)].
  - rewrite (shortenFilePath_unchanged s Hn Hnone).
    apply shortenFilePath_unchanged; assumption.
  - destruct (Contains_FirstAt _ _ Hp) as (pre & rest & Hf).
    rewrite (shortenFilePath_hosting s p pre rest before after Hn Hk Hb Hf).
    assert (Hr : p +:+ rest = sdrop (String.length pre) s).
    { destruct Hf as [Hs _]. rewrite Hs at 1. rewrite sdrop_app_length.
      reflexivity. }
    apply (shortenFilePath_hosting _ p "" rest before after).
    + rewrite Hr. apply not_Contains_drop, Hn.
    + exact Hk.
    + intros q Hq. rewrite Hr. apply not_Contains_drop, Hb, Hq.
    + split; [reflexivity|]. intros; simpl; lia.
Qed.

(** No hosting marker starts with the letter the standard-library result
    starts with. *)
Lemma pkg_not_hosting_prefix (rest p : string) :
  In p knownFilePathPatterns -> HasPrefix ("pkg/" +:+ rest) p = false.
Proof. intros [<-|[<-|[<-|[<-|[]]]]]; reflexivity. Qed.

(** A result of the standard-library case that still has a marker is cut
    again by a second pass. *)
Lemma shortenFilePath_pkg_fixed (rest : string) :
  shortenFilePath ("pkg/" +:+ rest) = "pkg/" +:+ rest ->
  ~ Contains ("pkg/" +:+ rest) stdlibMarker /\
  forall p, In p knownFilePathPatterns -> ~ Contains ("pkg/" +:+ rest) p.
Proof.
  set (r := "pkg/" +:+ rest). intros Heq.
  assert (Hstd : ~ Contains r stdlibMarker).
  { intros Hc. destruct (Contains_FirstAt _ _ Hc) as (pre2 & rest2 & Hf).
    rewrite (shortenFilePath_stdlib _ _ _ Hf) in Heq.
    destruct Hf as [Hs _]. rewrite Hs in Heq.
    apply (f_equal String.length) in Heq.
    rewrite !slength_app in Heq. simpl in Heq. lia. }
  split; [exact Hstd|].
  destruct (shortenKnown_cases knownFilePathPatterns r)
    as [Hnone|(before & p & after & Hk & Hb & Hp)]; [exact Hnone|].
  exfalso. destruct (Contains_FirstAt _ _ Hp) as (pre2 & rest2 & Hf).
  rewrite (shortenFilePath_hosting r p pre2 rest2 before after Hstd Hk Hb Hf)
    in Heq.
  destruct Hf as [Hs _].
  assert (Hpre : pre2 = "").
  { rewrite Hs in Heq. apply (f_equal String.length) in Heq.
    rewrite !slength_app in Heq. destruct pre2; [reflexivity|simpl in Heq; lia]. }
  subst pre2. rewrite sapp_nil_l in Hs.
  assert (Hin : In p knownFilePathPatterns)
    by (rewrite Hk; apply in_or_app; right; left; reflexivity).
  pose proof (pkg_not_hosting_prefix rest p Hin) as Hfalse.
  fold r in Hfalse. rewrite Hs, HasPrefix_app in Hfalse. discriminate.
Qed.

(** C4 (as amended). Normalising twice gives the same result as
    normalising once exactly when the path has no standard-library marker
    "/src/pkg/", or the result of the first pass has no marker left
    (neither "/src/pkg/" nor a hosting marker). *)
Theorem shortenFilePath_twice (s : string) :
  shortenFilePath (shortenFilePath s) = shortenFilePath s <->
  (~ Contains s stdlibMarker \/
   (~ Contains (shortenFilePath s) stdlibMarker /\
    forall p, In p knownFilePathPatterns -> ~ Contains (shortenFilePath s) p)).
Proof.
  split.
  - intros Heq. destruct (Index_range s stdlibMarker) as [Hi|Hi].
    + left. apply Index_absent_iff, Hi.
    + right. destruct (Index_found _ _ _ eq_refl Hi) as (pre & rest & Hs & Hl & Hm).
      assert (Hf : FirstAt s stdlibMarker pre rest) by (split; assumption).
      rewrite (shortenFilePath_stdlib _ _ _ Hf) in *.
      apply shortenFilePath_pkg_fixed, Heq.
  - intros [Hn|[Hstd Hk]].
    + apply shortenFilePath_idempotent_no_stdlib, Hn.
    + apply shortenFilePath_unchanged; assumption.
Qed.

(** C4 (as stated) fails: a path under a directory "src/pkg" that holds a Go
    workspace is cut to "pkg/..." by the first pass and to "github.com/..."
    by the second. *)
Lemma shortenFilePath_not_idempotent :
  shortenFilePath "/home/u/src/pkg/go/src/github.com/stvp/rollbar/stack.go"
  = "pkg/go/src/github.com/stvp/rollbar/stack.go" /\
  shortenFilePath
    (shortenFilePath "/home/u/src/pkg/go/src/github.com/stvp/rollbar/stack.go")
  = "github.com/stvp/rollbar/stack.go" /\
  ~ (forall s, shortenFilePath (shortenFilePath s) = shortenFilePath s).
Proof.
  split; [reflexivity|]. split; [reflexivity|].
  intros H.
  specialize (H "/home/u/src/pkg/go/src/github.com/stvp/rollbar/stack.go").
  vm_compute in H. discriminate H.
Qed.

(** *** What normalisation keeps *)

Lemma shortenKnown_suffix (ps : list string) (s : string) :
  exists pre, s = pre +:+ shortenKnown ps s.
Proof.
  induction ps as [|p ps IH]; [exists ""; reflexivity|]. simpl.
  destruct (negb (Index s p =? -1)); [apply sdrop_suffix|exact IH].
Qed.

(** The result of [shortenFilePath] is the end of the path it was given:
    nothing is added and nothing inside is changed.  It is the path itself,
    or it starts with "pkg/", or it starts with one of the hosting
    markers. *)
Theorem shortenFilePath_suffix (s : string) :
  (exists pre, s = pre +:+ shortenFilePath s) /\
  (String.length (shortenFilePath s) <= String.length s)%nat /\
  (shortenFilePath s = s \/
   HasPrefix (shortenFilePath s) "pkg/" = true \/
   exists p, In p knownFilePathPatterns /\
             HasPrefix (shortenFilePath s) p = true).
Proof.
  assert (Hsuf : exists pre, s = pre +:+ shortenFilePath s).
  { unfold shortenFilePath.
    destruct (negb (Index s "/src/pkg/" =? -1));
      [apply sdrop_suffix|apply shortenKnown_suffix]. }
  split; [exact Hsuf|]. split.
  - destruct Hsuf as [pre Hpre]. rewrite Hpre at 2. rewrite slength_app. lia.
  - destruct (Index_range s stdlibMarker) as [Hn|Hp].
    + apply Index_absent_iff in Hn.
      destruct (shortenKnown_cases knownFilePathPatterns s)
        as [Hnone|(before & p & after & Hk & Hb & Hc)].
      * left. apply shortenFilePath_unchanged; assumption.
      * right. right. exists p. split.
        -- rewrite Hk. apply in_or_app. right. left. reflexivity.
        -- destruct (Contains_FirstAt _ _ Hc) as (pre & rest & Hf).
           rewrite (shortenFilePath_hosting s p pre rest before after Hn Hk Hb Hf).
           apply HasPrefix_app.
    + right. left.
      destruct (Index_found _ _ _ eq_refl Hp) as (pre & rest & Hs & Hl & Hm).
      rewrite (shortenFilePath_stdlib s pre rest) by (split; assumption).
      reflexivity.
Qed.

(** *** Function names *)

Lemma sliceFrom_after (pre sub rest : string) :
  sliceFrom (pre +:+ sub +:+ rest)
    (Z.of_nat (String.length pre) + Z.of_nat (String.length sub)) = rest.
Proof.
  unfold sliceFrom. rewrite <- Nat2Z.inj_add, Nat2Z.id, sdrop_add.
  rewrite sdrop_app_length. apply sdrop_app_length.
Qed.

(** [functionName] answers "???" when the function is not known.
    Otherwise it answers the end of the name, after the last "/": the
    answer has no "/" in it, and what was cut is empty or ends with "/". *)
Theorem functionName_last_segment :
  functionName None = "???" /\
  (forall name,
     ~ Contains (functionName (Some name)) PathSeparator /\
     (functionName (Some name) = name \/
      exists dir, name = dir +:+ PathSeparator +:+ functionName (Some name))) /\
  (forall name, ~ Contains name PathSeparator ->
     functionName (Some name) = name).
Proof.
  split; [reflexivity|].
  assert (Hno : forall name, ~ Contains name PathSeparator ->
                  functionName (Some name) = name).
  { intros name Hn. unfold functionName.
    destruct (LastIndex_range name PathSeparator) as [E|E].
    - rewrite E. reflexivity.
    - exfalso. destruct (LastIndex_found _ _ _ eq_refl E) as (pre & rest & Hs & _).
      apply Hn. exists pre, rest. exact Hs. }
  split; [|exact Hno].
  intros name. unfold functionName.
  destruct (LastIndex_range name PathSeparator) as [E|E].
  - rewrite E. change (sliceFrom name (-1 + 1)) with name.
    split; [apply LastIndex_absent, E|left; reflexivity].
  - destruct (LastIndex_found _ _ _ eq_refl E) as (pre & rest & Hs & Hl & Hmax).
    assert (Hr : sliceFrom name (LastIndex name PathSeparator + 1) = rest).
    { rewrite <- Hl. rewrite Hs at 1.
      apply (sliceFrom_after pre PathSeparator rest). }
    rewrite Hr. split.
    + intros (p2 & r2 & Hrest).
      specialize (Hmax ((pre +:+ PathSeparator) +:+ p2) r2).
      rewrite !slength_app in Hmax. simpl in Hmax.
      assert (String.length pre + 1 + String.length p2 <= String.length pre)%nat;
        [|lia].
      apply Hmax. rewrite Hs, Hrest, !sapp_assoc. reflexivity.
    + right. exists pre. exact Hs.
Qed.

(** *** The frames of a stack *)

Lemma BuildStack_loop_map (levels : list Caller) (stack : Stack) :
  BuildStack_loop levels stack = stack ++ (frameOf <$> levels).
Proof.
  revert stack. induction levels as [|c levels IH]; intros stack; simpl.
  - rewrite app_nil_r. reflexivity.
  - rewrite IH, <- app_assoc. reflexivity.
Qed.

(** [BuildStack(skip)] has one frame for each level of the call stack from
    level [skip] on, in the order of the levels, each with the normalised
    file, the short function name and the line of its level; it is empty
    when [skip] is beyond the last level. *)
Theorem BuildStack_frames (callers : list Caller) (skip : Z) :
  0 <= skip ->
  (forall i : nat,
     BuildStack callers skip !! i
     = frameOf <$> callers !! (Z.to_nat skip + i)%nat) /\
  length (BuildStack callers skip) = (length callers - Z.to_nat skip)%nat /\
  (Z.of_nat (length callers) <= skip -> BuildStack callers skip = []).
Proof.
  intros Hskip. unfold BuildStack. rewrite BuildStack_loop_map. simpl.
  change (List.skipn (Z.to_nat skip) callers)
    with (drop (Z.to_nat skip) callers).
  split; [|split].
  - intros i. etrans; [apply list_lookup_fmap|].
    rewrite lookup_drop. reflexivity.
  - rewrite length_fmap, length_drop. reflexivity.
  - intros Hlen. rewrite drop_ge by lia. reflexivity.
Qed.

Lemma BuildStack_frames_witness :
  (forall i : nat,
     BuildStack test_callers 1 !! i
     = frameOf <$> test_callers !! (Z.to_nat 1 + i)%nat) /\
  length (BuildStack test_callers 1)
  = (length test_callers - Z.to_nat 1)%nat /\
  (Z.of_nat (length test_callers) <= 1 -> BuildStack test_callers 1 = []).
Proof.
  apply (BuildStack_frames test_callers 1). lia.
Defined.

End StackTraceFacts.

(** ** Facts about the checksum *)

Module Adler32Facts.
Import Adler32.

Example Checksum_Wikipedia : Checksum "Wikipedia" = 0x11E60398.
Proof. reflexivity. Qed.

Lemma update_range (p : string) (s1 s2 : Z) :
  0 <= s1 < mod_ -> 0 <= s2 < mod_ ->
  0 <= fst (update s1 s2 p) < mod_ /\ 0 <= snd (update s1 s2 p) < mod_.
Proof.
  revert s1 s2. induction p as [|c p IH]; intros s1 s2 H1 H2; simpl.
  - split; assumption.
  - apply IH; apply Z.mod_pos_bound; reflexivity.
Qed.

Lemma Checksum_range (data : string) : 0 <= Checksum data < 2 ^ 32.
Proof.
  unfold Checksum.
  pose proof (update_range data 1 0) as H.
  destruct (update 1 0 data) as [s1 s2]. simpl in H.
  destruct H as [H1 H2]; [unfold mod_; lia..|]. unfold mod_ in *.
  assert (Hs : 0 <= Z.shiftl s2 16 < 2 ^ 32).
  { rewrite Z.shiftl_mul_pow2 by lia. lia. }
  split.
  - apply Z.lor_nonneg. lia.
  - destruct (Z.eq_dec (Z.lor (Z.shiftl s2 16) s1) 0) as [->|Hnz]; [lia|].
    apply Z.log2_lt_pow2; [pose proof (proj2 (Z.lor_nonneg (Z.shiftl s2 16) s1)); lia|].
    rewrite Z.log2_lor by lia.
    apply Z.max_lub_lt.
    + destruct (Z.eq_dec (Z.shiftl s2 16) 0) as [->|]; [reflexivity|].
      apply Z.log2_lt_pow2; lia.
    + destruct (Z.eq_dec s1 0) as [->|]; [reflexivity|].
      apply Z.log2_lt_pow2; lia.
Qed.

End Adler32Facts.

(** ** Facts about the verbs *)

Module FmtFacts.
Import Fmt.

Example Sprintf_d_neg : Sprintf_d (-120) = "-120".
Proof. reflexivity. Qed.

Example Sprintf_x_beef : Sprintf_x 48879 = "beef".
Proof. reflexivity. Qed.

Lemma Sprintf_d_inj (n m : Z) : Sprintf_d n = Sprintf_d m -> n = m.
Proof.
  unfold Sprintf_d. intros H. apply DecimalZ.to_int_inj.
  pose proof (DecimalString.NilEmpty.isi (Z.to_int n)) as Hn.
  pose proof (DecimalString.NilEmpty.isi (Z.to_int m)) as Hm.
  rewrite H in Hn. rewrite Hn in Hm. injection Hm as Hm. exact Hm.
Qed.

End FmtFacts.

(** ** Facts about rollbar.go, version 0.2.0 *)

Module RollbarFacts.
Import GoStrings GoStringsFacts StackTrace StackTraceFacts Rollbar.

(** *** The sending queue *)

Lemma pending_inv_init (h : gmap loc Params) : pending_inv (init h).
Proof. unfold pending_inv. simpl. lia. Qed.

Lemma pending_inv_push (body : Body) (s s' : State) :
  pending_inv s -> state_of (push body s) = Some s' -> pending_inv s'.
Proof.
  unfold pending_inv, push. intros H.
  destruct (Z.ltb_spec (Z.of_nat (length (bodyChannel s))) (Buffer s)); simpl.
  - destruct (Z.ltb_spec (Z.of_nat (length (bodyChannel s))) (chanCap s));
      simpl; intros [= <-]; simpl; [rewrite length_app; simpl|]; lia.
  - intros [= <-]. simpl. lia.
Qed.

Lemma post_frame Marshal http_Post (body : Body) (s : State) :
  let s' := post Marshal http_Post body s in
  bodyChannel s' = bodyChannel s /\ waitGroup s' = waitGroup s /\
  heap s' = heap s /\ Token s' = Token s /\ chanCap s' = chanCap s /\
  Buffer s' = Buffer s.
Proof.
  unfold post. destruct (len (Token s) =? 0); [repeat split|].
  destruct (Marshal body) as [j|e]; [|repeat split]. simpl.
  destruct (http_Post (Endpoint s) j) as [e|code status]; [repeat split|].
  destruct (negb (code =? 200)); repeat split.
Qed.

Lemma pending_inv_worker Marshal http_Post (s s' : State) :
  pending_inv s -> worker_step Marshal http_Post s = Returns s' ->
  pending_inv s'.
Proof.
  unfold pending_inv, worker_step. intros H.
  destruct (bodyChannel s) as [|body rest] eqn:Hq; [discriminate|].
  destruct (post_frame Marshal http_Post body (set_bodyChannel rest s))
    as (Hc & Hw & _).
  destruct (Z.ltb_spec (waitGroup (post Marshal http_Post body
                                     (set_bodyChannel rest s)) - 1) 0);
    [discriminate|].
  intros [= <-]. simpl in *. rewrite Hc, Hw. lia.
Qed.



(** When [Buffer] has been raised above the capacity of the channel, a
    [push] on the full channel passes the test, counts the report and then
    waits on the send. *)
Lemma push_blocks_when_Buffer_raised (body : Body) (s : State) :
  Z.of_nat (length (bodyChannel s)) = chanCap s -> chanCap s < Buffer s ->
  push body s = Blocks (set_waitGroup (waitGroup s + 1) s).
Proof.
  intros Hfull Hb. unfold push.
  destruct (Z.ltb_spec (Z.of_nat (length (bodyChannel s))) (Buffer s)); [|lia].
  simpl.
  destruct (Z.ltb_spec (Z.of_nat (length (bodyChannel s))) (chanCap s)); [lia|].
  reflexivity.
Qed.

Lemma push_blocks_when_Buffer_raised_witness :
  push (messageBody "c") full_with_Buffer_raised
  = Blocks (set_waitGroup 3 full_with_Buffer_raised).
Proof.
  apply (push_blocks_when_Buffer_raised (messageBody "c")
           full_with_Buffer_raised).
  - reflexivity.
  - simpl. lia.
Defined.

(** *** The worker *)

Lemma len_zero (t : string) : (len t =? 0) = true <-> t = "".
Proof.
  unfold len. destruct t; simpl; [split; reflexivity|].
  split; intros H; discriminate H.
Qed.

Lemma post_empty_token Marshal http_Post (body : Body) (s : State) :
  Token s = "" -> post Marshal http_Post body s = stderr "empty token" s.
Proof. intros H. unfold post. rewrite H. reflexivity. Qed.

Lemma post_with_token Marshal http_Post (body : Body) (s : State) (j : string) :
  Token s <> "" -> Marshal body = inl j ->
  posted (post Marshal http_Post body s)
  = posted s ++ [mkPosted (Endpoint s) "application/json" j].
Proof.
  intros Ht Hm. unfold post.
  destruct (len (Token s) =? 0) eqn:E; [apply len_zero in E; contradiction|].
  rewrite Hm. simpl.
  destruct (http_Post (Endpoint s) j) as [e|code status]; [reflexivity|].
  destruct (negb (code =? 200)); reflexivity.
Qed.

(** [post] calls [http.Post] at most once. *)
Lemma post_at_most_once Marshal http_Post (body : Body) (s : State) :
  posted (post Marshal http_Post body s) = posted s \/
  exists p, posted (post Marshal http_Post body s) = posted s ++ [p].
Proof.
  unfold post. destruct (len (Token s) =? 0); [left; reflexivity|].
  destruct (Marshal body) as [j|e]; [|left; reflexivity].
  right. eexists. simpl.
  destruct (http_Post (Endpoint s) j) as [e|code status]; [reflexivity|].
  destruct (negb (code =? 200)); reflexivity.
Qed.

Lemma worker_step_eq Marshal http_Post (s : State) (body : Body)
    (rest : list Body) :
  bodyChannel s = body :: rest -> 0 < waitGroup s ->
  worker_step Marshal http_Post s
  = Returns (set_waitGroup (waitGroup s - 1)
               (post Marshal http_Post body (set_bodyChannel rest s))).
Proof.
  intros Hq Hw. unfold worker_step. rewrite Hq.
  destruct (post_frame Marshal http_Post body (set_bodyChannel rest s))
    as (_ & Hw' & _).
  simpl in Hw'. rewrite Hw'.
  destruct (Z.ltb_spec (waitGroup s - 1) 0); [lia|reflexivity].
Qed.

(** C6. The worker takes the report at the head of the channel, and
    whatever [post] does with it, the counter of [waitGroup] goes down by
    exactly one.  When [Token] is empty at that moment, [post] writes the
    line "empty token" to stderr and returns without calling [http.Post]. *)
Theorem worker_discards_without_token Marshal http_Post
    (s : State) (body : Body) (rest : list Body) :
  pending_inv s ->
  bodyChannel s = body :: rest ->
  (exists s', worker_step Marshal http_Post s = Returns s' /\
     bodyChannel s' = rest /\ waitGroup s' = waitGroup s - 1) /\
  (Token s = "" ->
     exists s', worker_step Marshal http_Post s = Returns s' /\
       posted s' = posted s /\
       stderrLog s' = stderrLog s ++ ["Rollbar error: empty token" +:+ newline] /\
       bodyChannel s' = rest /\ waitGroup s' = waitGroup s - 1).
Proof.
  intros Hinv Hq. unfold pending_inv in Hinv. rewrite Hq in Hinv.
  simpl length in Hinv.
  split.
  - unfold worker_step. rewrite Hq.
    destruct (post_frame Marshal http_Post body (set_bodyChannel rest s))
      as (Hc & Hw & _).
    simpl in Hc, Hw. rewrite Hw.
    destruct (Z.ltb_spec (waitGroup s - 1) 0); [lia|].
    eexists. split; [reflexivity|]. simpl. split; [exact Hc|reflexivity].
  - intros Ht. unfold worker_step. rewrite Hq.
    rewrite post_empty_token by exact Ht. simpl.
    destruct (Z.ltb_spec (waitGroup s - 1) 0); [lia|].
    eexists. split; [reflexivity|]. repeat split.
Qed.

Lemma worker_discards_without_token_witness :
  exists s',
    worker_step (fun _ => inl "{}") (fun _ _ => Response 200 "200 OK")
      one_waiting = Returns s' /\
    posted s' = [] /\
    stderrLog s' = ["Rollbar error: empty token" +:+ newline] /\
    bodyChannel s' = [] /\ waitGroup s' = 0.
Proof.
  apply (proj2 (worker_discards_without_token
                  (fun _ => inl "{}") (fun _ _ => Response 200 "200 OK")
                  one_waiting (messageBody "a") []
                  ltac:(unfold pending_inv; simpl; lia) eq_refl)).
  reflexivity.
Defined.

(** *** The two reads of [Token] *)

Lemma Message_body_access_token (env : Env) (s : State) (level msg : string) :
  Message_body env s level msg !! "access_token" = Some (VString (Token s)).
Proof. reflexivity. Qed.

Lemma ErrorWithStackSkip_body_access_token (env : Env) (s : State)
    (level : string) (err : GoError) (skip : Z) :
  ErrorWithStackSkip_body env s level err skip !! "access_token"
  = Some (VString (Token s)).
Proof. reflexivity. Qed.

(** C10. The "access_token" of a body is [Token] as it was when
    [buildBody] ran; whether [post] sends the body is decided by [Token] as
    it is when [post] runs, and not by what the body holds.  So a message
    reported before any token is set, and delivered after one is set, is
    POSTed with the empty access token. *)
Theorem token_read_at_build_and_at_delivery :
  (forall env s level title,
     buildBody env s level title !! "access_token" = Some (VString (Token s))) /\
  (forall Marshal http_Post body s,
     Token s = "" -> post Marshal http_Post body s = stderr "empty token" s) /\
  (forall Marshal http_Post body s j,
     Token s <> "" -> Marshal body = inl j ->
     posted (post Marshal http_Post body s)
     = posted s ++ [mkPosted (Endpoint s) "application/json" j]) /\
  (forall Marshal http_Post env level msg tok j,
     tok <> "" ->
     Marshal (Message_body env (init ∅) level msg) = inl j ->
     exists s1 s3 body,
       Message env level msg (init ∅) = Returns s1 /\
       bodyChannel s1 = [body] /\
       body !! "access_token" = Some (VString "") /\
       worker_step Marshal http_Post (set_Token tok s1) = Returns s3 /\
       posted s3 = [mkPosted (Endpoint s1) "application/json" j]).
Proof.
  split; [reflexivity|].
  split; [exact post_empty_token|].
  split; [exact post_with_token|].
  intros Marshal http_Post env level msg tok j Htok Hm.
  eexists _, _, (Message_body env (init ∅) level msg).
  split; [reflexivity|]. split; [reflexivity|]. split; [reflexivity|].
  split.
  - apply (worker_step_eq _ _ _ (Message_body env (init ∅) level msg) []);
      [reflexivity|simpl; lia].
  - simpl posted.
    erewrite post_with_token; [reflexivity|exact Htok|exact Hm].
Qed.

Lemma token_read_at_build_and_at_delivery_witness :
  exists s1 s3 body,
    Message (mkEnv 0 "host" "linux" []) INFO ("hello" +:+ newline +:+ "world")
      (init ∅) = Returns s1 /\
    bodyChannel s1 = [body] /\
    body !! "access_token" = Some (VString "") /\
    worker_step (fun _ => inl "{}") (fun _ _ => Response 200 "200 OK")
      (set_Token "MY_TOKEN" s1) = Returns s3 /\
    posted s3 = [mkPosted (Endpoint s1) "application/json" "{}"].
Proof.
  apply (proj2 (proj2 (proj2 token_read_at_build_and_at_delivery))
           (fun _ => inl "{}") (fun _ _ => Response 200 "200 OK")
           (mkEnv 0 "host" "linux" []) INFO
           ("hello" +:+ newline +:+ "world") "MY_TOKEN" "{}").
  - discriminate.
  - reflexivity.
Defined.

(** *** The exception class *)



Example errorClass_errorString :
  errorClass (mkError "*errors.errorString" "Wikipedia") = "{11e60398}".
Proof. reflexivity. Qed.

Example errorClass_pointer :
  errorClass (mkError "*os.PathError" "open x: no such file") = "os.PathError".
Proof. reflexivity. Qed.

Example errorClass_value :
  errorClass (mkError "rollbar.ErrHttpError"
                "rollbar: service returned status: 500")
  = "rollbar.ErrHttpError".
Proof. reflexivity. Qed.



(** *** The title of a report *)

(** C2 (as amended). The title of a report is the whole text of the
    message or of the error, line feeds and what follows them included: it
    is the text that the message body or the exception message holds.  The
    frames and the fingerprint of an error report are those of the call
    stack, whatever the text.  [Message("info", "hello\nworld")] builds a
    report with the title "hello\nworld". *)
Theorem title_is_whole_text :
  (forall env s level msg,
     getData "title" (Message_body env s level msg) = Some (VString msg) /\
     getData "body" (Message_body env s level msg)
     = Some (VMap (messageBody msg))) /\
  (forall env s level err skip,
     let stack := BuildStack (callers env) (3 + skip) in
     getData "title" (ErrorWithStackSkip_body env s level err skip)
     = Some (VString (errText err)) /\
     getData "body" (ErrorWithStackSkip_body env s level err skip)
     = Some (VMap (fst (errorBody env err skip))) /\
     fst (errorBody env err skip)
     = list_to_map [
         ("trace", VMap (list_to_map [
            ("frames", VStack stack);
            ("exception", VMap (list_to_map [
               ("class", VString (errorClass err));
               ("message", VString (errText err)) ])) ])) ] /\
     getData "fingerprint" (ErrorWithStackSkip_body env s level err skip)
     = Some (VString (Fingerprint stack))) /\
  (forall env s,
     getData "title"
       (Message_body env s INFO ("hello" +:+ newline +:+ "world"))
     = Some (VString ("hello" +:+ newline +:+ "world"))).
Proof.
  split; [intros; split; reflexivity|].
  split; [|intros; reflexivity].
  intros env s level err skip stack. repeat split.
Qed.

(** C2 (as stated) fails: the title of the message "hello\nworld" is not
    "hello", and no entry point cuts the text at the first line feed. *)
Lemma title_not_first_line :
  SplitN2_first ("hello" +:+ newline +:+ "world") newline = "hello" /\
  (forall env s,
     getData "title"
       (Message_body env s INFO ("hello" +:+ newline +:+ "world"))
     <> Some (VString "hello")) /\
  ~ (forall env s level msg,
       getData "title" (Message_body env s level msg)
       = Some (VString (SplitN2_first msg newline))) /\
  ~ (forall env s level err skip,
       getData "title" (ErrorWithStackSkip_body env s level err skip)
       = Some (VString (SplitN2_first (errText err) newline))).
Proof.
  split; [reflexivity|].
  split; [intros env s H; vm_compute in H; discriminate H|].
  split.
  - intros H.
    specialize (H (mkEnv 0 "" "" []) (init ∅) INFO
                  ("hello" +:+ newline +:+ "world")).
    vm_compute in H. discriminate H.
  - intros H.
    specialize (H (mkEnv 0 "" "" []) (init ∅) ERR
                  (mkError "*errors.errorString"
                     ("hello" +:+ newline +:+ "world")) 0).
    vm_compute in H. discriminate H.
Qed.

(** *** Filtering *)

(** What the loop leaves under each key. *)
Lemma filterLoop_lookup (re : Regexp) (m : Params) (key : string) :
  filterLoop re m !! key
  = if Match re key then (fun _ => [FILTERED]) <$> m !! key else m !! key.
Proof.
  unfold filterLoop.
  assert (H : forall acc : Params,
             map_fold (fun key _ acc =>
                         if Match re key then <[key := [FILTERED]]> acc else acc)
                      acc m !! key
             = if Match re key
               then match m !! key with
                    | Some _ => Some [FILTERED]
                    | None => acc !! key
                    end
               else acc !! key).
  { intros acc.
    apply (map_fold_weak_ind
             (fun (r : Params) (m' : Params) =>
                r !! key = if Match re key
                           then match m' !! key with
                                | Some _ => Some [FILTERED]
                                | None => acc !! key
                                end
                           else acc !! key)).
    - rewrite lookup_empty. destruct (Match re key); reflexivity.
    - intros i x m' r Hi IH. destruct (decide (i = key)) as [->|Hne].
      + rewrite lookup_insert_eq. rewrite Hi in IH.
        destruct (Match re key); [apply lookup_insert_eq|exact IH].
      + rewrite (lookup_insert_ne m') by exact Hne.
        destruct (Match re i); [rewrite lookup_insert_ne by exact Hne|];
          exact IH. }
  rewrite H. destruct (Match re key); [|reflexivity].
  destruct (m !! key); reflexivity.
Qed.

Lemma filterParams_Some (s : State) (l : loc) (m : Params) :
  heap s !! l = Some m ->
  filterParams (Some l) s
  = (Some l, set_heap (<[l := filterLoop (FilterFields s) m]> (heap s)) s).
Proof. intros H. unfold filterParams. rewrite H. reflexivity. Qed.

(** C3 (as amended). [filterParams] puts the one-element list
    ["[FILTERED]"] under every key of the map that [FilterFields] matches
    and leaves every other key with the values it had, adding no key.  The
    match is the regular expression's own: the default pattern
    "password|secret|token" matches a key that has one of the three words in
    lower case anywhere in it, so {"password": ["abc"], "username": ["bob"]}
    becomes {"password": ["[FILTERED]"], "username": ["bob"]}, and the key
    "Secret" is not matched and keeps its values. *)
Theorem filterParams_redacts :
  (forall re m key,
     filterLoop re m !! key
     = if Match re key then (fun _ => [FILTERED]) <$> m !! key else m !! key) /\
  (forall s l m,
     heap s !! l = Some m ->
     deref (filterParams (Some l) s).1 (filterParams (Some l) s).2
     = filterLoop (FilterFields s) m) /\
  filterLoop defaultFilterFields
    (<["password" := ["abc"]]> (<["username" := ["bob"]]> ∅))
  = <["password" := ["[FILTERED]"]]> (<["username" := ["bob"]]> ∅) /\
  Match defaultFilterFields "secret" = true /\
  Match defaultFilterFields "user_password" = true /\
  Match defaultFilterFields "Secret" = false /\
  filterLoop defaultFilterFields (<["Secret" := ["abc"]]> ∅)
  = <["Secret" := ["abc"]]> ∅.
Proof.
  split; [exact filterLoop_lookup|].
  split.
  - intros s l m H. rewrite (filterParams_Some s l m H). simpl.
    rewrite lookup_insert_eq. reflexivity.
  - repeat split; reflexivity.
Qed.

Lemma filterParams_redacts_witness :
  deref
    (filterParams (Some 1%positive)
       (set_heap {[ 1%positive := {[ "token" := ["t0"; "t1"] ]} ]} (init ∅))).1
    (filterParams (Some 1%positive)
       (set_heap {[ 1%positive := {[ "token" := ["t0"; "t1"] ]} ]} (init ∅))).2
  = filterLoop defaultFilterFields {[ "token" := ["t0"; "t1"] ]}.
Proof.
  apply (proj1 (proj2 filterParams_redacts)
           (set_heap {[ 1%positive := {[ "token" := ["t0"; "t1"] ]} ]} (init ∅))
           1%positive {[ "token" := ["t0"; "t1"] ]}).
  reflexivity.
Defined.

(** C3 (as stated) fails: with the default pattern the values under the
    key "Secret" are not replaced. *)
Lemma filterParams_Secret_kept :
  filterLoop defaultFilterFields (<["Secret" := ["abc"]]> ∅) !! "Secret"
  = Some ["abc"] /\
  ~ (filterLoop defaultFilterFields (<["Secret" := ["abc"]]> ∅) !! "Secret"
     = Some ["[FILTERED]"]).
Proof.
  assert (H : filterLoop defaultFilterFields (<["Secret" := ["abc"]]> ∅)
              !! "Secret" = Some ["abc"])
    by (rewrite filterLoop_lookup; reflexivity).
  split; [exact H|]. rewrite H. discriminate.
Qed.

(** *** Filtering happens in the caller's map *)

Lemma push_heap (body : Body) (s : State) :
  exists s', state_of (push body s) = Some s' /\ heap s' = heap s.
Proof.
  unfold push.
  destruct (Z.of_nat (length (bodyChannel s)) <? Buffer s); simpl.
  - destruct (Z.of_nat (length (bodyChannel s)) <? chanCap s);
      eexists; split; reflexivity.
  - eexists; split; reflexivity.
Qed.

Lemma errorRequest_heap Encode (r : Request) (s : State) (l : loc) (m : Params) :
  Form r = Some l -> heap s !! l = Some m ->
  heap (errorRequest Encode r s).2 !! l = Some (filterLoop (FilterFields s) m) /\
  FilterFields (errorRequest Encode r s).2 = FilterFields s.
Proof.
  intros Hf Hl. unfold errorRequest.
  set (lq := fresh (dom (heap s))).
  assert (Hne : lq <> l).
  { intros E. apply (is_fresh (dom (heap s))). fold lq. rewrite E.
    apply elem_of_dom. rewrite Hl. eexists. reflexivity. }
  rewrite (filterParams_Some _ lq (URL_Query r))
    by (simpl; apply lookup_insert_eq).
  rewrite Hf.
  rewrite (filterParams_Some _ l m)
    by (simpl; rewrite !lookup_insert_ne by exact Hne; exact Hl).
  simpl. rewrite lookup_insert_eq. split; reflexivity.
Qed.

(** C9. [filterParams] writes into the map it is given and returns the
    reference it was given.  After [RequestError], the map behind [r.Form]
    is the filtered one: every key of it that [FilterFields] matches holds
    ["[FILTERED]"]. *)
Theorem filterParams_in_place Encode (env : Env) (level : string)
    (r : Request) (err : GoError) (s : State) (l : loc) (m : Params) :
  Form r = Some l ->
  heap s !! l = Some m ->
  (exists s1, filterParams (Some l) s = (Some l, s1) /\
     heap s1 !! l = Some (filterLoop (FilterFields s) m) /\
     forall l', l' <> l -> heap s1 !! l' = heap s !! l') /\
  (exists s', state_of (RequestError Encode env level r err s) = Some s' /\
     heap s' !! l = Some (filterLoop (FilterFields s) m) /\
     forall key v, m !! key = Some v -> Match (FilterFields s) key = true ->
       heap s' !! l ≫= (fun form => form !! key) = Some [FILTERED]).
Proof.
  intros Hf Hl. split.
  - rewrite (filterParams_Some s l m Hl). eexists. split; [reflexivity|].
    simpl. split; [apply lookup_insert_eq|].
    intros l' Hne. apply lookup_insert_ne. congruence.
  - unfold RequestError, RequestErrorWithStackSkip,
      RequestErrorWithStackSkip_body.
    destruct (errorBody env err 1) as [errBody fingerprint].
    pose proof (errorRequest_heap Encode r s l m Hf Hl) as [Hh _].
    destruct (errorRequest Encode r s) as [request s1]. simpl in Hh.
    destruct (push_heap
                (setData "request" (VMap request)
                   (setData "fingerprint" (VString fingerprint)
                      (setData "body" (VMap errBody)
                         (buildBody env s level (errText err))))) s1)
      as (s' & Hs' & Hheap).
    exists s'. split; [exact Hs'|]. rewrite Hheap, Hh. split; [reflexivity|].
    intros key v Hk Hm. simpl. rewrite filterLoop_lookup, Hm, Hk. reflexivity.
Qed.

Lemma filterParams_in_place_witness :
  exists s',
    state_of (RequestError (fun _ => "") (mkEnv 0 "host" "linux" []) ERR
                login_request (mkError "*errors.errorString" "boom")
                (set_heap {[ 1%positive := login_form ]} (init ∅))) = Some s' /\
    heap s' !! 1%positive = Some (filterLoop defaultFilterFields login_form) /\
    forall key v, login_form !! key = Some v ->
      Match defaultFilterFields key = true ->
      heap s' !! 1%positive ≫= (fun form => form !! key) = Some [FILTERED].
Proof.
  assert (Hheap : heap (set_heap {[ 1%positive := login_form ]} (init ∅))
                  !! 1%positive = Some login_form) by reflexivity.
  exact (proj2 (filterParams_in_place (fun _ => "")
                  (mkEnv 0 "host" "linux" []) ERR login_request
                  (mkError "*errors.errorString" "boom")
                  (set_heap {[ 1%positive := login_form ]} (init ∅))
                  1%positive login_form eq_refl Hheap)).
Defined.

Example RequestError_filters_form :
  exists s',
    state_of (RequestError (fun _ => "") (mkEnv 0 "host" "linux" []) ERR
                login_request (mkError "*errors.errorString" "boom")
                (set_heap {[ 1%positive := login_form ]} (init ∅))) = Some s' /\
    heap s' !! 1%positive
    = Some (<["password" := ["[FILTERED]"]]> (<["username" := ["bob"]]> ∅)).
Proof. eexists. split; vm_compute; reflexivity. Qed.

(** *** Fingerprints *)

Lemma sapp_inv_tail (s1 s2 t : string) : s1 +:+ t = s2 +:+ t -> s1 = s2.
Proof.
  revert s2. induction s1 as [|a s1 IH]; intros [|b s2] H.
  - reflexivity.
  - apply (f_equal String.length) in H. rewrite sapp_nil_l, slength_app in H.
    simpl in H. lia.
  - apply (f_equal String.length) in H. rewrite sapp_nil_l, slength_app in H.
    simpl in H. lia.
  - rewrite !sapp_cons in H. injection H as -> H. f_equal. apply IH, H.
Qed.

Lemma sapp_inj_last (s1 s2 : string) (a b : ascii) :
  s1 +:+ String a "" = s2 +:+ String b "" -> s1 = s2 /\ a = b.
Proof.
  revert s2. induction s1 as [|c s1 IH]; intros [|d s2] H.
  - rewrite !sapp_nil_l in H. injection H as ->. split; reflexivity.
  - rewrite sapp_nil_l, sapp_cons in H. injection H as _ H.
    destruct s2; discriminate H.
  - rewrite sapp_nil_l, sapp_cons in H. injection H as _ H.
    destruct s1; discriminate H.
  - rewrite !sapp_cons in H. injection H as -> H.
    destruct (IH _ H) as [-> ->]. split; reflexivity.
Qed.

Lemma hexValue_hexDigit (d : Z) : 0 <= d < 16 -> hexValue (hexDigit d) = d.
Proof.
  intros H.
  assert (Hd : d = 0 \/ d = 1 \/ d = 2 \/ d = 3 \/ d = 4 \/ d = 5 \/ d = 6 \/
               d = 7 \/ d = 8 \/ d = 9 \/ d = 10 \/ d = 11 \/ d = 12 \/
               d = 13 \/ d = 14 \/ d = 15) by lia.
  repeat (destruct Hd as [->|Hd]; [reflexivity|]). subst d. reflexivity.
Qed.

Lemma hexFixed_inj (w : nat) (n m : Z) :
  0 <= n < 16 ^ Z.of_nat w -> 0 <= m < 16 ^ Z.of_nat w ->
  hexFixed w n = hexFixed w m -> n = m.
Proof.
  revert n m. induction w as [|w IH]; intros n m Hn Hm H.
  - simpl in Hn, Hm. lia.
  - rewrite Nat2Z.inj_succ, Z.pow_succ_r in Hn, Hm by lia.
    simpl in H. apply sapp_inj_last in H as [Hhi Hlo].
    apply IH in Hhi; [|split; [apply Z.div_pos; lia|apply Z.div_lt_upper_bound; lia]..].
    apply (f_equal hexValue) in Hlo.
    rewrite !hexValue_hexDigit in Hlo by (apply Z.mod_pos_bound; lia).
    rewrite (Z.div_mod n 16), (Z.div_mod m 16) by lia. lia.
Qed.

Lemma stackText_app (s1 s2 : Stack) :
  stackText (s1 ++ s2) = stackText s1 +:+ stackText s2.
Proof.
  induction s1 as [|f s1 IH]; [reflexivity|].
  simpl. rewrite IH, sapp_assoc. reflexivity.
Qed.

(** Another line number in one frame gives another text. *)
Lemma stackText_line (s1 s2 : Stack) (f : Frame) (l' : Z) :
  l' <> Line f ->
  stackText (s1 ++ f :: s2)
  <> stackText (s1 ++ mkFrame (Filename f) (Method f) l' :: s2).
Proof.
  intros Hne H. rewrite !stackText_app in H. simpl in H.
  unfold frameText in H. simpl in H. rewrite !sapp_assoc in H.
  do 3 apply String.app_inj in H.
  apply sapp_inv_tail, FmtFacts.Sprintf_d_inj in H. congruence.
Qed.

Lemma sameFrame_eq (s s' : Stack) : Forall2 sameFrame s s' -> s = s'.
Proof.
  induction 1 as [|f g s s' (Hf & Hm & Hl) _ IH]; [reflexivity|].
  destruct f, g. simpl in *. subst. reflexivity.
Qed.

(** C8 (as amended). Stacks with the same frames, in the same order, have
    the same fingerprint.  Another line number in one frame changes the
    text that is checksummed; the fingerprint changes exactly when the
    checksum of that text does. *)
Theorem Fingerprint_of_frames :
  (forall s s', Forall2 sameFrame s s' -> Fingerprint s = Fingerprint s') /\
  (forall s1 f s2 l', l' <> Line f ->
     stackText (s1 ++ f :: s2)
     <> stackText (s1 ++ mkFrame (Filename f) (Method f) l' :: s2)) /\
  (forall s s',
     Fingerprint s = Fingerprint s' <->
     Adler32.Checksum (stackText s) = Adler32.Checksum (stackText s')).
Proof.
  split; [intros s s' H; apply sameFrame_eq in H; subst; reflexivity|].
  split; [intros s1 f s2 l'; apply stackText_line|].
  intros s s'. unfold Fingerprint. split; [|intros ->; reflexivity].
  apply (hexFixed_inj 8); apply Adler32Facts.Checksum_range.
Qed.

Lemma Fingerprint_of_frames_witness :
  Fingerprint [mkFrame "github.com/stvp/rollbar/stack_test.go"
                 "rollbar.TestBuildStack" 8]
  = Fingerprint [mkFrame "github.com/stvp/rollbar/stack_test.go"
                   "rollbar.TestBuildStack" 8].
Proof.
  apply (proj1 Fingerprint_of_frames).
  repeat constructor.
Defined.

(** C8 (as stated) fails: lines 120 and 201 of the same function give the
    same fingerprint. *)
Lemma Fingerprint_line_collision :
  Fingerprint [mkFrame "github.com/stvp/rollbar/stack_test.go"
                 "rollbar.TestBuildStack" 120]
  = Fingerprint [mkFrame "github.com/stvp/rollbar/stack_test.go"
                   "rollbar.TestBuildStack" 201] /\
  ~ (forall s1 f s2 l', l' <> Line f ->
       Fingerprint (s1 ++ f :: s2)
       <> Fingerprint (s1 ++ mkFrame (Filename f) (Method f) l' :: s2)).
Proof.
  split; [reflexivity|]. intros H.
  apply (H [] (mkFrame "github.com/stvp/rollbar/stack_test.go"
                 "rollbar.TestBuildStack" 120) [] 201).
  - discriminate.
  - reflexivity.
Qed.

(** *** Any 32-bit checksum *)

Lemma bounded_search (g : Z -> Z) (v : Z) (n : nat) :
  (exists i, 0 <= i <= Z.of_nat n /\ g i = v) \/
  (forall i, 0 <= i <= Z.of_nat n -> g i <> v).
Proof.
  induction n as [|n IH].
  - destruct (Z.eq_dec (g 0) v) as [E|E].
    + left. exists 0. split; [simpl; lia|exact E].
    + right. intros i Hi. assert (i = 0) as -> by (simpl in Hi; lia). exact E.
  - destruct IH as [(i & Hi & E)|IH].
    + left. exists i. split; [lia|exact E].
    + destruct (Z.eq_dec (g (Z.of_nat (S n))) v) as [E|E].
      * left. exists (Z.of_nat (S n)). split; [lia|exact E].
      * right. intros i Hi.
        destruct (Z.eq_dec i (Z.of_nat (S n))) as [->|Hne]; [exact E|].
        apply IH. lia.
Qed.

(** [n + 1] arguments with values among [n] numbers: two values agree. *)
Lemma pigeonhole (n : nat) (g : Z -> Z) :
  (forall i, 0 <= i <= Z.of_nat n -> 0 <= g i < Z.of_nat n) ->
  exists i j, 0 <= i < j /\ j <= Z.of_nat n /\ g i = g j.
Proof.
  revert g. induction n as [|n IH]; intros g Hg.
  - specialize (Hg 0). simpl in Hg. lia.
  - destruct (bounded_search g (g (Z.of_nat (S n))) n) as [(i & Hi & E)|Hno].
    + exists i, (Z.of_nat (S n)). split; [lia|]. split; [lia|exact E].
    + pose proof (Hg (Z.of_nat (S n)) ltac:(lia)) as Hv.
      destruct (IH (fun i => if g i <? g (Z.of_nat (S n))
                             then g i else g i - 1))
        as (i & j & Hij & Hj & E).
      * intros i Hi. specialize (Hno i Hi).
        specialize (Hg i ltac:(lia)).
        destruct (Z.ltb_spec (g i) (g (Z.of_nat (S n)))); lia.
      * exists i, j. split; [exact Hij|]. split; [lia|].
        pose proof (Hno i ltac:(lia)). pose proof (Hno j ltac:(lia)).
        destruct (Z.ltb_spec (g i) (g (Z.of_nat (S n))));
          destruct (Z.ltb_spec (g j) (g (Z.of_nat (S n)))); lia.
Qed.

(** Whatever the checksum, as long as its values have 32 bits: among the
    first [2^32 + 1] line numbers of any function, two give the same
    fingerprint. *)
Lemma FingerprintWith_collision (checksum : string -> Z)
    (filename method : string) :
  (forall text, 0 <= checksum text < 2 ^ 32) ->
  exists l l', 0 <= l < l' /\ l' <= 2 ^ 32 /\
    FingerprintWith checksum [mkFrame filename method l]
    = FingerprintWith checksum [mkFrame filename method l'].
Proof.
  intros checksum_range.
  destruct (pigeonhole (Z.to_nat (2 ^ 32))
              (fun l => checksum (stackText [mkFrame filename method l])))
    as (l & l' & Hl & Hl' & E).
  - intros i _. rewrite Z2Nat.id by lia. apply checksum_range.
  - rewrite Z2Nat.id in Hl' by lia.
    exists l, l'. split; [exact Hl|]. split; [exact Hl'|].
    unfold FingerprintWith. rewrite E. reflexivity.
Qed.

Lemma FingerprintWith_collision_witness :
  exists l l', 0 <= l < l' /\ l' <= 2 ^ 32 /\
    FingerprintWith Adler32.Checksum
      [mkFrame "github.com/stvp/rollbar/stack_test.go" "rollbar.TestBuildStack" l]
    = FingerprintWith Adler32.Checksum
        [mkFrame "github.com/stvp/rollbar/stack_test.go" "rollbar.TestBuildStack" l'].
Proof.
  apply (FingerprintWith_collision Adler32.Checksum
           "github.com/stvp/rollbar/stack_test.go" "rollbar.TestBuildStack"
           Adler32Facts.Checksum_range).
Defined.

(** *** What [post] does *)

Lemma post_config Marshal http_Post (body : Body) (s : State) :
  let s' := post Marshal http_Post body s in
  Token s' = Token s /\ Environment s' = Environment s /\
  Endpoint s' = Endpoint s /\ Buffer s' = Buffer s /\
  FilterFields s' = FilterFields s /\ heap s' = heap s /\
  bodyChannel s' = bodyChannel s /\ chanCap s' = chanCap s /\
  waitGroup s' = waitGroup s.
Proof.
  unfold post. destruct (len (Token s) =? 0); [repeat split|].
  destruct (Marshal body) as [j|e]; [|repeat split]. simpl.
  destruct (http_Post (Endpoint s) j) as [e|code status]; [repeat split|].
  destruct (negb (code =? 200)); repeat split.
Qed.

Lemma post_posted Marshal http_Post (body : Body) (s : State) :
  posted (post Marshal http_Post body s)
  = posted s ++ option_list (delivery Marshal s body).
Proof.
  unfold post, delivery. destruct (len (Token s) =? 0);
    [simpl; rewrite app_nil_r; reflexivity|].
  destruct (Marshal body) as [j|e];
    [|simpl; rewrite app_nil_r; reflexivity]. simpl.
  destruct (http_Post (Endpoint s) j) as [e|code status]; [reflexivity|].
  destruct (negb (code =? 200)); reflexivity.
Qed.

Lemma snoc_neq {A} (l : list A) (x : A) : l ++ [x] <> l.
Proof.
  intros H. apply (f_equal length) in H. rewrite length_app in H.
  simpl in H. lia.
Qed.

(** [post] changes nothing but the two logs.  It calls [http.Post] at most
    once, and not at all without a token or when the body cannot be
    encoded.  It writes at most one line to stderr, and it writes none
    exactly when the body was encoded and POSTed with a token set and the
    answer had the status code 200. *)
Theorem post_one_attempt Marshal http_Post (body : Body) (s : State) :
  let s' := post Marshal http_Post body s in
  (Token s' = Token s /\ Environment s' = Environment s /\
   Endpoint s' = Endpoint s /\ Buffer s' = Buffer s /\
   FilterFields s' = FilterFields s /\ heap s' = heap s /\
   bodyChannel s' = bodyChannel s /\ chanCap s' = chanCap s /\
   waitGroup s' = waitGroup s) /\
  posted s' = posted s ++ option_list (delivery Marshal s body) /\
  (stderrLog s' = stderrLog s \/
   exists line, stderrLog s' = stderrLog s ++ [line]) /\
  (stderrLog s' = stderrLog s <->
   Token s <> "" /\
   exists jsonBody Status,
     Marshal body = inl jsonBody /\
     http_Post (Endpoint s) jsonBody = Response 200 Status).
Proof.
  split; [apply post_config|]. split; [apply post_posted|].
  unfold post.
  destruct (len (Token s) =? 0) eqn:Ht.
  { apply len_zero in Ht. simpl. split; [right; eexists; reflexivity|].
    split; [intros H; apply snoc_neq in H; contradiction|].
    intros [Hne _]. contradiction. }
  assert (Hne : Token s <> "").
  { intros E. apply len_zero in E. congruence. }
  destruct (Marshal body) as [j|e] eqn:Hm.
  2:{ simpl. split; [right; eexists; reflexivity|].
      split; [intros H; apply snoc_neq in H; contradiction|].
      intros (_ & j & st & Hj & _). discriminate. }
  simpl.
  destruct (http_Post (Endpoint s) j) as [e|code status] eqn:Hp.
  { simpl. split; [right; eexists; reflexivity|].
    split; [intros H; apply snoc_neq in H; contradiction|].
    intros (_ & j' & st & [= <-] & Hp'). rewrite Hp in Hp'. discriminate. }
  destruct (Z.eqb_spec code 200) as [->|Hcode]; simpl.
  - split; [left; reflexivity|]. split; [|reflexivity].
    intros _. split; [exact Hne|]. exists j, status. split; [reflexivity|exact Hp].
  - split; [right; eexists; reflexivity|].
    split; [intros H; apply snoc_neq in H; contradiction|].
    intros (_ & j' & st & [= <-] & Hp'). rewrite Hp in Hp'.
    injection Hp' as Hc _. contradiction.
Qed.

(** *** The worker empties the channel in order *)

Lemma delivery_ext Marshal (s s' : State) (body : Body) :
  Token s' = Token s -> Endpoint s' = Endpoint s ->
  delivery Marshal s' body = delivery Marshal s body.
Proof. intros Ht He. unfold delivery. rewrite Ht, He. reflexivity. Qed.

Lemma omap_delivery_ext Marshal (s s' : State) (l : list Body) :
  Token s' = Token s -> Endpoint s' = Endpoint s ->
  omap (delivery Marshal s') l = omap (delivery Marshal s) l.
Proof.
  intros Ht He. induction l as [|b l IH]; [reflexivity|].
  simpl. rewrite (delivery_ext Marshal s s' b Ht He).
  destruct (delivery Marshal s b); [f_equal|]; exact IH.
Qed.

Lemma worker_turns_drain Marshal http_Post (q : list Body) :
  forall s, bodyChannel s = q -> pending_inv s ->
  exists s', worker_turns Marshal http_Post (length q) s = Returns s' /\
    bodyChannel s' = [] /\
    waitGroup s' = waitGroup s - Z.of_nat (length q) /\
    posted s' = posted s ++ omap (delivery Marshal s) q /\
    Token s' = Token s /\ Endpoint s' = Endpoint s.
Proof.
  induction q as [|body rest IH]; intros s Hq Hinv.
  - exists s. simpl. rewrite app_nil_r. repeat split; [exact Hq|lia].
  - assert (Hw : 0 < waitGroup s).
    { unfold pending_inv in Hinv. rewrite Hq in Hinv. simpl length in Hinv. lia. }
    simpl worker_turns.
    rewrite (worker_step_eq Marshal http_Post s body rest Hq Hw).
    destruct (post_config Marshal http_Post body (set_bodyChannel rest s))
      as (Ht & _ & He & _ & _ & _ & Hc & _ & Hwg).
    simpl in Ht, He, Hc, Hwg.
    destruct (IH (set_waitGroup (waitGroup s - 1)
                    (post Marshal http_Post body (set_bodyChannel rest s))))
      as (s' & Hrun & Hq' & Hw' & Hp' & Ht' & He').
    + exact Hc.
    + unfold pending_inv in *. simpl. rewrite Hc. rewrite Hq in Hinv.
      simpl length in Hinv. lia.
    + exists s'. split; [exact Hrun|]. split; [exact Hq'|].
      simpl in Hw', Hp', Ht', He'.
      split; [simpl length; lia|]. split; [|split; congruence].
      rewrite Hp', post_posted. simpl posted.
      rewrite <- app_assoc. f_equal.
      rewrite (delivery_ext Marshal s (set_bodyChannel rest s) body)
        by reflexivity.
      assert (Hext : omap (delivery Marshal
                             (set_waitGroup (waitGroup s - 1)
                                (post Marshal http_Post body
                                   (set_bodyChannel rest s)))) rest
                     = omap (delivery Marshal s) rest).
      { apply omap_delivery_ext; simpl; assumption. }
      rewrite Hext. simpl omap.
      destruct (delivery Marshal s body); reflexivity.
Qed.

(** As many turns of the worker as there are reports in the channel empty
    the channel, take the counter of [waitGroup] down by that number, and
    call [http.Post] for the reports in the order in which they were
    queued, once for each report that a token and the encoder let through;
    the next turn waits on the empty channel. *)
Theorem worker_turns_fifo Marshal http_Post (s : State) :
  pending_inv s ->
  exists s',
    worker_turns Marshal http_Post (length (bodyChannel s)) s = Returns s' /\
    bodyChannel s' = [] /\
    waitGroup s' = waitGroup s - Z.of_nat (length (bodyChannel s)) /\
    posted s' = posted s ++ omap (delivery Marshal s) (bodyChannel s) /\
    worker_step Marshal http_Post s' = Blocks s'.
Proof.
  intros Hinv.
  destruct (worker_turns_drain Marshal http_Post (bodyChannel s) s eq_refl Hinv)
    as (s' & Hrun & Hq & Hw & Hp & _).
  exists s'. repeat split; try assumption.
  unfold worker_step. rewrite Hq. reflexivity.
Qed.

Lemma worker_turns_fifo_witness :
  exists s',
    worker_turns (fun _ => inl "{}") (fun _ _ => Response 200 "200 OK")
      (length (bodyChannel two_waiting)) two_waiting = Returns s' /\
    bodyChannel s' = [] /\
    waitGroup s' = waitGroup two_waiting
                   - Z.of_nat (length (bodyChannel two_waiting)) /\
    posted s' = posted two_waiting
                ++ omap (delivery (fun _ => inl "{}") two_waiting)
                     (bodyChannel two_waiting) /\
    worker_step (fun _ => inl "{}") (fun _ _ => Response 200 "200 OK") s'
    = Blocks s'.
Proof.
  apply (worker_turns_fifo (fun _ => inl "{}")
           (fun _ _ => Response 200 "200 OK") two_waiting).
  unfold pending_inv. simpl. lia.
Defined.

(** *** Many reports *)

Lemma pushes_outcome (bodies : list Body) (s : State) :
  Buffer s <= chanCap s ->
  let room := Z.to_nat (Buffer s - Z.of_nat (length (bodyChannel s))) in
  exists s', pushes bodies s = Returns s' /\
    bodyChannel s' = bodyChannel s ++ take room bodies /\
    waitGroup s' = waitGroup s + Z.of_nat (length (take room bodies)) /\
    stderrLog s'
    = stderrLog s ++ replicate (length (drop room bodies)) dropped_line /\
    posted s' = posted s /\ Token s' = Token s /\ Endpoint s' = Endpoint s.
Proof.
  revert s. induction bodies as [|body bodies IH]; intros s Hcap room.
  - exists s. simpl. rewrite take_nil, drop_nil, !app_nil_r. simpl.
    repeat split; lia.
  - simpl pushes. unfold push.
    destruct (Z.ltb_spec (Z.of_nat (length (bodyChannel s))) (Buffer s))
      as [Hlt|Hge].
    + simpl.
      destruct (Z.ltb_spec (Z.of_nat (length (bodyChannel s))) (chanCap s));
        [|lia].
      destruct (IH (set_bodyChannel (bodyChannel s ++ [body])
                      (set_waitGroup (waitGroup s + 1) s)))
        as (s' & Hrun & Hq & Hw & Hl & Hp & Ht & He); [simpl; lia|].
      simpl in Hq, Hw, Hl, Hp, Ht, He. rewrite length_app in Hq, Hw, Hl.
      simpl in Hq, Hw, Hl.
      assert (Hroom : room
                      = S (Z.to_nat (Buffer s
                                     - Z.of_nat (length (bodyChannel s) + 1))))
        by (subst room; lia).
      exists s'. split; [exact Hrun|]. rewrite Hroom. simpl.
      rewrite Hq, Hw, Hl, <- app_assoc. simpl. repeat split; try assumption.
      lia.
    + destruct (IH (stderr "buffer full, dropping error on the floor" s))
        as (s' & Hrun & Hq & Hw & Hl & Hp & Ht & He); [simpl; lia|].
      simpl in Hq, Hw, Hl, Hp, Ht, He.
      assert (Hroom : room = 0%nat) by (subst room; lia).
      assert (Hroom' : Z.to_nat (Buffer s - Z.of_nat (length (bodyChannel s)))
                       = 0%nat) by lia.
      rewrite Hroom' in Hq, Hw, Hl.
      exists s'. split; [exact Hrun|]. rewrite Hroom. simpl.
      rewrite Hq, Hw, Hl, <- app_assoc. simpl. rewrite !drop_0.
      repeat split; assumption.
Qed.

(** A row of [push] calls accepts reports, in their order, until the
    channel holds [Buffer] of them, and drops every later one with one
    line on stderr for each; the counter of [waitGroup] goes up by the
    number accepted.  [Buffer] is the capacity the channel was made with,
    or has been lowered since. *)
Theorem pushes_fill_then_drop (bodies : list Body) (s : State) :
  Buffer s <= chanCap s ->
  let room := Z.to_nat (Buffer s - Z.of_nat (length (bodyChannel s))) in
  exists s', pushes bodies s = Returns s' /\
    bodyChannel s' = bodyChannel s ++ take room bodies /\
    waitGroup s' = waitGroup s + Z.of_nat (length (take room bodies)) /\
    stderrLog s'
    = stderrLog s ++ replicate (length (drop room bodies)) dropped_line /\
    posted s' = posted s.
Proof.
  intros Hcap room.
  destruct (pushes_outcome bodies s Hcap) as (s' & H1 & H2 & H3 & H4 & H5 & _).
  exists s'. repeat split; assumption.
Qed.

Lemma pushes_fill_then_drop_witness :
  exists s', pushes [messageBody "c"; messageBody "d"] full_of_two = Returns s' /\
    bodyChannel s'
    = bodyChannel full_of_two
      ++ take (Z.to_nat (Buffer full_of_two
                         - Z.of_nat (length (bodyChannel full_of_two))))
           [messageBody "c"; messageBody "d"] /\
    waitGroup s'
    = waitGroup full_of_two
      + Z.of_nat (length
          (take (Z.to_nat (Buffer full_of_two
                           - Z.of_nat (length (bodyChannel full_of_two))))
             [messageBody "c"; messageBody "d"])) /\
    stderrLog s'
    = stderrLog full_of_two
      ++ replicate
           (length
              (drop (Z.to_nat (Buffer full_of_two
                               - Z.of_nat (length (bodyChannel full_of_two))))
                 [messageBody "c"; messageBody "d"])) dropped_line /\
    posted s' = posted full_of_two.
Proof.
  apply (pushes_fill_then_drop [messageBody "c"; messageBody "d"] full_of_two).
  simpl. lia.
Defined.

(** Reports pushed onto the empty channel and then taken by the worker:
    every accepted report gets its turn, in the order of the pushes, with
    one call of [http.Post] for each that a token and the encoder let
    through; afterwards the counter is back where it was, so [Wait]
    returns when it was zero. *)
Theorem push_then_drain Marshal http_Post (bodies : list Body) (s : State) :
  Buffer s <= chanCap s ->
  bodyChannel s = [] ->
  0 <= waitGroup s ->
  let accepted := take (Z.to_nat (Buffer s)) bodies in
  exists s1 s2,
    pushes bodies s = Returns s1 /\
    bodyChannel s1 = accepted /\
    worker_turns Marshal http_Post (length accepted) s1 = Returns s2 /\
    bodyChannel s2 = [] /\
    waitGroup s2 = waitGroup s /\
    posted s2 = posted s ++ omap (delivery Marshal s) accepted /\
    (waitGroup s = 0 -> Wait s2 = Returns s2).
Proof.
  intros Hcap Hq Hw accepted.
  destruct (pushes_outcome bodies s Hcap)
    as (s1 & Hrun & Hq1 & Hw1 & _ & Hp1 & Ht1 & He1).
  rewrite Hq in Hq1, Hw1. simpl in Hq1, Hw1.
  replace (Z.to_nat (Buffer s - Z.of_nat 0)) with (Z.to_nat (Buffer s))
    in Hq1, Hw1 by lia.
  fold accepted in Hq1, Hw1.
  assert (Hinv : pending_inv s1) by (unfold pending_inv; rewrite Hq1, Hw1; lia).
  destruct (worker_turns_drain Marshal http_Post accepted s1 Hq1 Hinv)
    as (s2 & Hrun2 & Hq2 & Hw2 & Hp2 & _).
  exists s1, s2. split; [exact Hrun|]. split; [exact Hq1|].
  split; [exact Hrun2|]. split; [exact Hq2|]. split; [lia|]. split.
  - rewrite Hp2, Hp1. f_equal. apply omap_delivery_ext; assumption.
  - intros Hz. unfold Wait. replace (waitGroup s2) with 0 by lia. reflexivity.
Qed.

Lemma push_then_drain_witness :
  exists s1 s2,
    pushes [messageBody "a"; messageBody "b"] (set_Token "MY_TOKEN" (init ∅))
    = Returns s1 /\
    bodyChannel s1 = take (Z.to_nat 1000) [messageBody "a"; messageBody "b"] /\
    worker_turns (fun _ => inl "{}") (fun _ _ => Response 200 "200 OK")
      (length (take (Z.to_nat 1000) [messageBody "a"; messageBody "b"])) s1
    = Returns s2 /\
    bodyChannel s2 = [] /\
    waitGroup s2 = 0 /\
    posted s2
    = [] ++ omap (delivery (fun _ => inl "{}") (set_Token "MY_TOKEN" (init ∅)))
              (take (Z.to_nat 1000) [messageBody "a"; messageBody "b"]) /\
    (0 = 0 -> Wait s2 = Returns s2).
Proof.
  apply (push_then_drain (fun _ => inl "{}") (fun _ _ => Response 200 "200 OK")
           [messageBody "a"; messageBody "b"] (set_Token "MY_TOKEN" (init ∅))).
  - simpl. lia.
  - reflexivity.
  - simpl. lia.
Defined.

(** *** What every run keeps *)



(** *** More on filtering *)

(** [filterParams] keeps the keys of the map, changes nothing in a map
    with no matching key, and changes nothing more when it runs again on a
    map it has filtered. *)
Theorem filterLoop_again (re : Regexp) (m : Params) :
  dom (filterLoop re m) = dom m /\
  filterLoop re (filterLoop re m) = filterLoop re m /\
  ((forall key, is_Some (m !! key) -> Match re key = false) ->
   filterLoop re m = m).
Proof.
  split; [|split].
  - apply set_eq. intros key. rewrite !elem_of_dom, filterLoop_lookup.
    destruct (Match re key); [|reflexivity].
    destruct (m !! key); simpl; [|reflexivity].
    split; intros _; eexists; reflexivity.
  - apply map_eq. intros key. rewrite !filterLoop_lookup.
    destruct (Match re key); [|reflexivity].
    destruct (m !! key); reflexivity.
  - intros H. apply map_eq. intros key. rewrite filterLoop_lookup.
    destruct (m !! key) as [v|] eqn:Hk.
    + rewrite (H key) by (rewrite Hk; eexists; reflexivity). reflexivity.
    + destruct (Match re key); reflexivity.
Qed.

Lemma filterLoop_again_witness :
  filterLoop defaultFilterFields {[ "username" := ["bob"] ]}
  = {[ "username" := ["bob"] ]}.
Proof.
  apply (proj2 (proj2 (filterLoop_again defaultFilterFields
                         {[ "username" := ["bob"] ]}))).
  intros key [v Hv].
  destruct (decide (key = "username")) as [->|Hne]; [reflexivity|].
  rewrite lookup_singleton_ne in Hv by congruence. discriminate Hv.
Defined.

(** What a filtered map shows under a key once it is flattened. *)
Lemma flatten_filter_lookup (re : Regexp) (m : Params) (key : string) :
  flattenValues (filterLoop re m) !! key
  = (fun vs => if Match re key then VString FILTERED else flattenValue vs)
    <$> m !! key.
Proof.
  unfold flattenValues. rewrite lookup_fmap, filterLoop_lookup.
  destruct (Match re key); destruct (m !! key); reflexivity.
Qed.

Lemma filterParams_deref (values : Values) (s : State) :
  valid_ref values s ->
  deref (filterParams values s).1 (filterParams values s).2
  = filterLoop (FilterFields s) (deref values s) /\
  FilterFields (filterParams values s).2 = FilterFields s /\
  (forall l, values <> Some l ->
     heap (filterParams values s).2 !! l = heap s !! l).
Proof.
  destruct values as [l|]; simpl.
  - intros [m Hm]. rewrite Hm. simpl. rewrite lookup_insert_eq.
    split; [reflexivity|]. split; [reflexivity|].
    intros l' Hne. apply lookup_insert_ne. congruence.
  - intros _. split; [|split; [reflexivity|intros; reflexivity]].
    unfold filterLoop. rewrite map_fold_empty. reflexivity.
Qed.

(** The request entry of a report: "GET" and "POST" hold the flattened
    parameters of the URL and of the form after filtering, so a parameter
    whose key [FilterFields] matches shows as the one string "[FILTERED]",
    any other parameter shows as its one value or as the list of its
    values, and "query_string" is encoded from the filtered parameters;
    "url", "method" and "headers" are those of the request, not filtered.
    Of the maps of the program, only the one behind [r.Form] is changed. *)
Theorem errorRequest_entries Encode (r : Request) (s : State) :
  valid_ref (Form r) s ->
  let request := (errorRequest Encode r s).1 in
  let s' := (errorRequest Encode r s).2 in
  let re := FilterFields s in
  request !! "url" = Some (VString (URL_String r)) /\
  request !! "method" = Some (VString (Method_ r)) /\
  request !! "headers" = Some (VMap (flattenValues (Header r))) /\
  request !! "query_string"
  = Some (VString (Encode (filterLoop re (URL_Query r)))) /\
  request !! "GET" = Some (VMap (flattenValues (filterLoop re (URL_Query r)))) /\
  request !! "POST"
  = Some (VMap (flattenValues (filterLoop re (deref (Form r) s)))) /\
  (forall key,
     flattenValues (filterLoop re (deref (Form r) s)) !! key
     = (fun vs => if Match re key then VString FILTERED else flattenValue vs)
       <$> deref (Form r) s !! key) /\
  (forall l, is_Some (heap s !! l) -> Form r <> Some l ->
     heap s' !! l = heap s !! l).
Proof.
  intros Hv request s' re. subst request s'. unfold errorRequest.
  set (lq := fresh (dom (heap s))).
  set (s0 := set_heap (<[lq := URL_Query r]> (heap s)) s).
  assert (Hfresh : heap s !! lq = None).
  { apply not_elem_of_dom. apply is_fresh. }
  assert (Hq : heap s0 !! lq = Some (URL_Query r)) by apply lookup_insert_eq.
  rewrite (filterParams_Some s0 lq (URL_Query r) Hq).
  set (s1 := set_heap (<[lq := filterLoop (FilterFields s0) (URL_Query r)]> (heap s0)) s0).
  assert (Hv1 : valid_ref (Form r) s1).
  { destruct (Form r) as [l|]; [|exact I]. simpl in *.
    destruct Hv as [m Hm].
    assert (l <> lq) by (intros ->; congruence).
    rewrite !lookup_insert_ne by congruence. rewrite Hm. eexists; reflexivity. }
  assert (Hd1 : deref (Form r) s1 = deref (Form r) s).
  { destruct (Form r) as [l|]; [|reflexivity]. simpl in *.
    destruct Hv as [m Hm].
    assert (l <> lq) by (intros ->; congruence).
    rewrite !lookup_insert_ne by congruence. reflexivity. }
  destruct (filterParams_deref (Form r) s1 Hv1) as (Hdf & _ & Hframe).
  destruct (filterParams (Form r) s1) as [cleanForm s2] eqn:Hfp.
  simpl in Hdf, Hframe. cbn [fst snd].
  assert (Hget : deref (Some lq) s1 = filterLoop re (URL_Query r)).
  { simpl. rewrite lookup_insert_eq. reflexivity. }
  rewrite Hget, Hdf, Hd1.
  repeat split.
  - intros key. apply flatten_filter_lookup.
  - intros l Hl Hne. rewrite Hframe by exact Hne. simpl.
    assert (l <> lq) by (intros ->; rewrite Hfresh in Hl; destruct Hl; discriminate).
    rewrite !lookup_insert_ne by congruence. reflexivity.
Qed.

Lemma errorRequest_entries_witness :
  (errorRequest (fun _ => "") login_request
     (set_heap {[ 1%positive := login_form ]} (init ∅))).1 !! "POST"
  = Some (VMap (flattenValues
                  (filterLoop defaultFilterFields
                     (deref (Form login_request)
                        (set_heap {[ 1%positive := login_form ]} (init ∅)))))).
Proof.
  assert (Hv : valid_ref (Form login_request)
                 (set_heap {[ 1%positive := login_form ]} (init ∅)))
    by (eexists; reflexivity).
  exact (proj1 (proj2 (proj2 (proj2 (proj2 (proj2
           (errorRequest_entries (fun _ => "") login_request
              (set_heap {[ 1%positive := login_form ]} (init ∅)) Hv))))))).
Defined.

(** *** The parts of a report *)

(** Every report keeps the envelope that [buildBody] made: the
    assignments of "body", "fingerprint" and "request" into "data" leave
    the token, the environment, the title, the level, the time, the
    platform, the language, the host and the notifier as they were.  A
    message report has no fingerprint and no request entry, an error
    report has no request entry, and a request report has all three. *)
Theorem report_parts Encode (env : Env) (s : State) (level : string) :
  (forall msg,
     envelope env s level msg (Message_body env s level msg) /\
     getData "body" (Message_body env s level msg)
     = Some (VMap (messageBody msg)) /\
     getData "fingerprint" (Message_body env s level msg) = None /\
     getData "request" (Message_body env s level msg) = None) /\
  (forall err skip,
     envelope env s level (errText err)
       (ErrorWithStackSkip_body env s level err skip) /\
     getData "body" (ErrorWithStackSkip_body env s level err skip)
     = Some (VMap (errorBody env err skip).1) /\
     getData "fingerprint" (ErrorWithStackSkip_body env s level err skip)
     = Some (VString (errorBody env err skip).2) /\
     getData "request" (ErrorWithStackSkip_body env s level err skip) = None) /\
  (forall r err skip,
     let body := (RequestErrorWithStackSkip_body Encode env s level r err skip).1 in
     envelope env s level (errText err) body /\
     getData "body" body = Some (VMap (errorBody env err skip).1) /\
     getData "fingerprint" body = Some (VString (errorBody env err skip).2) /\
     getData "request" body = Some (VMap (errorRequest Encode r s).1)).
Proof.
  split; [intros msg; repeat split|].
  split; [intros err skip; repeat split|].
  intros r err skip body. subst body.
  unfold RequestErrorWithStackSkip_body.
  destruct (errorBody env err skip) as [errBody fingerprint].
  destruct (errorRequest Encode r s) as [request s1].
  repeat split.
Qed.

(** The stack of an error report starts [3 + skip] levels above
    [BuildStack]: a report made by [Error] or [RequestError] leaves out
    the levels of [BuildStack], [errorBody], the [...WithStackSkip]
    function and [Error] or [RequestError] itself, and holds the frames of
    the levels from their caller on, with the fingerprint of those
    frames. *)
Theorem error_report_stack (env : Env) (err : GoError) (skip : Z) :
  0 <= skip ->
  let stack := frameOf <$> drop (3 + Z.to_nat skip) (callers env) in
  errorBody env err skip = (traceBody stack err, Fingerprint stack) /\
  (forall c0 c1 c2 c3 rest,
     callers env = c0 :: c1 :: c2 :: c3 :: rest ->
     errorBody env err 1
     = (traceBody (frameOf <$> rest) err, Fingerprint (frameOf <$> rest))).
Proof.
  intros Hskip stack.
  assert (Hb : forall k, 0 <= k ->
            BuildStack (callers env) (3 + k)
            = frameOf <$> drop (3 + Z.to_nat k) (callers env)).
  { intros k Hk. unfold BuildStack. rewrite BuildStack_loop_map. simpl.
    replace (Z.to_nat (3 + k)) with (3 + Z.to_nat k)%nat by lia.
    reflexivity. }
  split.
  - unfold errorBody. rewrite (Hb skip Hskip). reflexivity.
  - intros c0 c1 c2 c3 rest Hc. unfold errorBody.
    rewrite (Hb 1) by lia. rewrite Hc. reflexivity.
Qed.

Lemma error_report_stack_witness :
  errorBody (mkEnv 0 "host" "linux" test_callers)
    (mkError "*errors.errorString" "boom") 0
  = (traceBody (frameOf <$> drop (3 + Z.to_nat 0) test_callers)
       (mkError "*errors.errorString" "boom"),
     Fingerprint (frameOf <$> drop (3 + Z.to_nat 0) test_callers)).
Proof.
  apply (proj1 (error_report_stack (mkEnv 0 "host" "linux" test_callers)
                  (mkError "*errors.errorString" "boom") 0 ltac:(lia))).
Defined.

End RollbarFacts.

(** ** Facts about rollbar.go, version 0.1.0 *)

Module LegacyFacts.
Import GoStrings GoStringsFacts StackTrace StackTraceFacts Rollbar RollbarFacts Legacy.

Lemma SplitN2_first_line (first rest : string) :
  ~ Contains first newline ->
  SplitN2_first (first +:+ newline +:+ rest) newline = first.
Proof.
  intros Hn. unfold SplitN2_first.
  assert (Hf : FirstAt (first +:+ newline +:+ rest) newline first rest).
  { split; [reflexivity|]. intros pre' rest' Hs.
    destruct (Nat.le_gt_cases (String.length first) (String.length pre'))
      as [Hle|Hgt]; [exact Hle|].
    exfalso. apply Hn.
    apply (f_equal (stake (String.length pre' + 1))) in Hs.
    exists pre', (sdrop (String.length pre' + 1) first).
    destruct (sdrop_suffix (String.length pre' + 1) first) as [p Hp].
    assert (Hlp : String.length p = (String.length pre' + 1)%nat).
    { apply (f_equal String.length) in Hp.
      rewrite slength_app, slength_drop in Hp. lia. }
    rewrite Hp, sapp_assoc, <- Hlp, stake_app_length in Hs.
    rewrite Hlp in Hs.
    replace (pre' +:+ newline +:+ rest')
      with ((pre' +:+ newline) +:+ rest') in Hs by apply sapp_assoc.
    replace (String.length pre' + 1)%nat
      with (String.length (pre' +:+ newline)) in Hs
      by (rewrite slength_app; reflexivity).
    rewrite stake_app_length in Hs.
    rewrite Hp at 1. rewrite Hs. apply sapp_assoc. }
  apply FirstAt_Index in Hf as [_ Hi]. rewrite Hi.
  destruct (Z.ltb_spec (Z.of_nat (String.length first)) 0); [lia|].
  rewrite Nat2Z.id. apply stake_app_length.
Qed.

(** In version 0.1.0 the title is the text before the first line feed,
    and the message body and the exception message keep the whole text. *)
Lemma legacy_title_first_line :
  (forall env s level msg,
     getData "title" (Message_body env s level msg)
     = Some (VString (SplitN2_first msg newline)) /\
     getData "body" (Message_body env s level msg)
     = Some (VMap (messageBody msg))) /\
  (forall env s level err skip,
     getData "title" (ErrorWithStackSkip_body env s level err skip)
     = Some (VString (SplitN2_first (errText err) newline)) /\
     getData "body" (ErrorWithStackSkip_body env s level err skip)
     = Some (VMap (fst (errorBody env err skip))) /\
     getData "fingerprint" (ErrorWithStackSkip_body env s level err skip)
     = Some (VString (Fingerprint (BuildStack (callers env) (3 + skip))))) /\
  (forall first rest, ~ Contains first newline ->
     SplitN2_first (first +:+ newline +:+ rest) newline = first) /\
  (forall text, ~ Contains text newline -> SplitN2_first text newline = text) /\
  (forall env s,
     getData "title"
       (Message_body env s INFO ("hello" +:+ newline +:+ "world"))
     = Some (VString "hello")).
Proof.
  split; [intros; split; reflexivity|].
  split; [intros; repeat split|].
  split; [exact SplitN2_first_line|].
  split; [|intros; reflexivity].
  intros text Hn. unfold SplitN2_first.
  apply Index_absent_iff in Hn. rewrite Hn. reflexivity.
Qed.

(** In version 0.1.0 the title is the beginning of the text and has no
    line feed in it. *)
Theorem legacy_title_one_line (env : Env) (s : State) (level : string) :
  (forall text,
     ~ Contains (SplitN2_first text newline) newline /\
     exists rest, text = SplitN2_first text newline +:+ rest) /\
  (forall msg, exists title rest,
     getData "title" (Message_body env s level msg) = Some (VString title) /\
     msg = title +:+ rest /\ ~ Contains title newline) /\
  (forall err skip, exists title rest,
     getData "title" (ErrorWithStackSkip_body env s level err skip)
     = Some (VString title) /\
     errText err = title +:+ rest /\ ~ Contains title newline).
Proof.
  assert (H : forall text,
            ~ Contains (SplitN2_first text newline) newline /\
            exists rest, text = SplitN2_first text newline +:+ rest).
  { intros text. unfold SplitN2_first.
    destruct (Index_range text newline) as [E|E].
    - rewrite E. simpl. split; [apply Index_absent, E|].
      exists "". rewrite sapp_nil_r. reflexivity.
    - destruct (Z.ltb_spec (Index text newline) 0); [lia|].
      destruct (Index_found _ _ _ eq_refl E) as (pre & rest & Hs & Hl & Hmin).
      rewrite <- Hl, Nat2Z.id.
      assert (Hst : stake (String.length pre) text = pre)
        by (rewrite Hs; apply stake_app_length).
      rewrite Hst.
      split; [|exists (newline +:+ rest); exact Hs].
      intros (p1 & r1 & Hpre).
      specialize (Hmin p1 (r1 +:+ newline +:+ rest)).
      assert (String.length pre <= String.length p1)%nat.
      { apply Hmin. rewrite Hs, Hpre, !sapp_assoc. reflexivity. }
      apply (f_equal String.length) in Hpre.
      rewrite !slength_app in Hpre. simpl in Hpre. lia. }
  split; [exact H|]. split.
  - intros msg. destruct (H msg) as [Hn [rest Hr]].
    exists (SplitN2_first msg newline), rest. repeat split; assumption.
  - intros err skip. destruct (H (errText err)) as [Hn [rest Hr]].
    exists (SplitN2_first (errText err) newline), rest.
    repeat split; assumption.
Qed.

End LegacyFacts.

(** ** Facts about errors.go *)

Module ErrorsFacts.
Import GoStrings GoStringsFacts Rollbar RollbarFacts Errors.

(** The message of an [ErrHttpError] tells the status code: in both
    variants two codes with the same message are the same code, and no code
    gives the message of [ErrNoToken]. *)
Theorem ErrHttpError_Error_inj :
  (forall e e', ErrHttpError_Error e = ErrHttpError_Error e' -> e = e') /\
  (forall e e',
     ErrHttpError_Error_replied e = ErrHttpError_Error_replied e' -> e = e') /\
  (forall e, ErrHttpError_Error e <> ErrNoToken_Error) /\
  (forall e, ErrHttpError_Error_replied e <> ErrNoToken_Error).
Proof.
  split; [|split; [|split]].
  - intros e e' H. unfold ErrHttpError_Error in H.
    apply String.app_inj in H. apply FmtFacts.Sprintf_d_inj, H.
  - intros e e' H. unfold ErrHttpError_Error_replied in H.
    apply String.app_inj in H.
    apply sapp_inv_tail, FmtFacts.Sprintf_d_inj in H. exact H.
  - intros e H. unfold ErrHttpError_Error, ErrNoToken_Error in H.
    cbv [String.append] in H. discriminate H.
  - intros e H. unfold ErrHttpError_Error_replied, ErrNoToken_Error in H.
    cbv [String.append] in H. discriminate H.
Qed.

End ErrorsFacts.
